(** * ShaderTypes.h: buffer indices and fixed-layout records shared by
      the host code and the Metal shaders

    The header declares two enumerations of buffer binding slots and five
    plain structs.  It contains no function: what can be verified is the
    numbering of the enumerations, the shape of the records, and the byte
    layout a C or Metal compiler derives from the declarations.

    Conventions of the embedding:
    - [uint] is a 32-bit machine word ([Naive.word32]); converting an
      integer to it is C's conversion to an unsigned type ([word.of_Z]).
    - [float] is an IEEE-754 binary32 datum, represented by its 32-bit
      encoding: the header only stores floats, it never computes on them.
    - [vector_float2] and [vector_float4] are the <simd/simd.h> vectors:
      2 and 4 packed floats, aligned on their own size.
    - memory is a [list byte]; scalars are stored little-endian, as on
      every Metal-capable target. *)

From Stdlib Require Import ZArith List Lia String Bool.
From Stdlib Require Import Floats.SpecFloat.
From coqutil Require Import Byte Word.Interface Word.Properties Word.Naive.
From coqutil Require Import Word.LittleEndianList.
Import ListNotations.
Local Open Scope Z_scope.

(** ** Machine scalars *)

Definition word32 : Type := Naive.word32.

#[local] Existing Instance Naive.word32_ok.

Definition uint : Type := word32.
Definition float : Type := word32.

(** C conversion of an integer to [uint]: reduction modulo 2^32. *)
Definition uint_of_Z (z : Z) : uint := word.of_Z z.
Definition uint_to_Z (u : uint) : Z := word.unsigned u.

(** ** Enumerations (lines 19-31 of the header) *)

Inductive BufferIndex : Set :=
| BufferIndexVertices
| BufferIndexInstances
| BufferIndexUniforms.

Inductive SimulationBufferIndex : Set :=
| SimulationBufferIndexRestPositions
| SimulationBufferIndexStates
| SimulationBufferIndexInstances
| SimulationBufferIndexUniforms
| SimulationBufferIndexTouches.

(** The enumerator constants, as integers of [EnumBackingType]. *)
Definition BufferIndex_raw (e : BufferIndex) : Z :=
  match e with
  | BufferIndexVertices => 0
  | BufferIndexInstances => 1
  | BufferIndexUniforms => 2
  end.

Definition SimulationBufferIndex_raw (e : SimulationBufferIndex) : Z :=
  match e with
  | SimulationBufferIndexRestPositions => 0
  | SimulationBufferIndexStates => 1
  | SimulationBufferIndexInstances => 2
  | SimulationBufferIndexUniforms => 3
  | SimulationBufferIndexTouches => 4
  end.

(** The enumerators in declaration order. *)
Definition BufferIndex_all : list BufferIndex :=
  [BufferIndexVertices; BufferIndexInstances; BufferIndexUniforms].

Definition SimulationBufferIndex_all : list SimulationBufferIndex :=
  [SimulationBufferIndexRestPositions; SimulationBufferIndexStates;
   SimulationBufferIndexInstances; SimulationBufferIndexUniforms;
   SimulationBufferIndexTouches].

(** [EnumBackingType] is [metal::int32_t] under [__METAL_VERSION__] and
    [NSInteger] otherwise; a constant is portable when it fits the
    narrower of the two. *)
Definition fits_int32 (z : Z) : bool :=
  (- 2 ^ 31 <=? z) && (z <? 2 ^ 31).

(** ** C types occurring in the header, with their size and alignment *)

Inductive ctype : Set :=
| Tfloat
| Tuint
| Tvector_float2
| Tvector_float4
| Tarray (elem : ctype) (count : nat).

Fixpoint sizeof (t : ctype) : nat :=
  match t with
  | Tfloat => 4
  | Tuint => 4
  | Tvector_float2 => 8
  | Tvector_float4 => 16
  | Tarray elem count => count * sizeof elem
  end.

Fixpoint alignof (t : ctype) : nat :=
  match t with
  | Tfloat => 4
  | Tuint => 4
  | Tvector_float2 => 8
  | Tvector_float4 => 16
  | Tarray elem _ => alignof elem
  end.

(** Number of 32-bit scalars a value of the type is made of. *)
Fixpoint scalars (t : ctype) : nat :=
  match t with
  | Tfloat => 1
  | Tuint => 1
  | Tvector_float2 => 2
  | Tvector_float4 => 4
  | Tarray elem count => count * scalars elem
  end.

(** A struct declaration: its members, in declaration order. *)
Definition member : Set := string * ctype.
Definition struct_decl : Set := list member.

Local Open Scope string_scope.

Definition DotInstanceUniform_decl : struct_decl :=
  [("center", Tvector_float2)].

Definition FrameUniforms_decl : struct_decl :=
  [("canvasSize", Tvector_float2);
   ("dotRadius", Tfloat);
   ("smoothing", Tfloat);
   ("gradientStart", Tvector_float2);
   ("gradientEnd", Tvector_float2);
   ("time", Tfloat);
   ("driftStrength", Tfloat);
   ("gradientStopCount", Tuint);
   ("_padding", Tuint);
   ("gradientStops", Tvector_float4);
   ("gradientColors", Tarray Tvector_float4 4)].

Definition SimulationDotState_decl : struct_decl :=
  [("offset", Tvector_float2);
   ("velocity", Tvector_float2)].

Definition SimulationTouch_decl : struct_decl :=
  [("position", Tvector_float4)].

Definition SimulationUniforms_decl : struct_decl :=
  [("timeSpring", Tvector_float4);
   ("displacementMass", Tvector_float4);
   ("touchCount", Tuint);
   ("dotCount", Tuint);
   ("padding0", Tuint);
   ("padding1", Tuint)].

Local Close Scope string_scope.

(** *** The layout a C compiler gives a struct

    Each member is placed at the first offset, at or after the end of the
    previous one, that is a multiple of its alignment; the struct is
    aligned like its most aligned member and its size is rounded up to
    that alignment. *)

Local Open Scope nat_scope.

Definition align_up (a off : nat) : nat := ((off + (a - 1)) / a) * a.

Section Layout.
(** The alignment the target gives each type. *)
Variable al : ctype -> nat.

Fixpoint place_from (off : nat) (d : struct_decl) : list (string * nat) :=
  match d with
  | [] => []
  | (name, t) :: rest =>
      let o := align_up (al t) off in
      (name, o) :: place_from (o + sizeof t) rest
  end.

Fixpoint end_from (off : nat) (d : struct_decl) : nat :=
  match d with
  | [] => off
  | (_, t) :: rest => end_from (align_up (al t) off + sizeof t) rest
  end.

Definition struct_alignof_under (d : struct_decl) : nat :=
  fold_right (fun m a => Nat.max (al (snd m)) a) 1 d.

Definition struct_sizeof_under (d : struct_decl) : nat :=
  align_up (struct_alignof_under d) (end_from 0 d).

Definition struct_offsets_under (d : struct_decl) : list (string * nat) :=
  place_from 0 d.
End Layout.

Definition struct_alignof : struct_decl -> nat := struct_alignof_under alignof.
Definition struct_sizeof : struct_decl -> nat := struct_sizeof_under alignof.
Definition struct_offsets : struct_decl -> list (string * nat) :=
  struct_offsets_under alignof.

(** Other targets: any choice of power-of-two alignments that do not
    exceed the size of the type (packed vectors included). *)
Record abi : Set := mk_abi
  { abi_float : nat; abi_uint : nat; abi_float2 : nat; abi_float4 : nat }.

Fixpoint abi_alignof (a : abi) (t : ctype) : nat :=
  match t with
  | Tfloat => abi_float a
  | Tuint => abi_uint a
  | Tvector_float2 => abi_float2 a
  | Tvector_float4 => abi_float4 a
  | Tarray elem _ => abi_alignof a elem
  end.

Definition all_abis : list abi :=
  flat_map (fun f =>
    flat_map (fun u =>
      flat_map (fun v2 =>
        map (fun v4 => mk_abi f u v2 v4) [1; 2; 4; 8; 16])
        [1; 2; 4; 8])
      [1; 2; 4])
    [1; 2; 4].

Definition header_decls : list struct_decl :=
  [DotInstanceUniform_decl; FrameUniforms_decl; SimulationDotState_decl;
   SimulationTouch_decl; SimulationUniforms_decl].

Fixpoint offsets_eqb (l r : list (string * nat)) : bool :=
  match l, r with
  | [], [] => true
  | (n, o) :: l', (n', o') :: r' =>
      String.eqb n n' && Nat.eqb o o' && offsets_eqb l' r'
  | _, _ => false
  end.

Definition same_layout (a : abi) (d : struct_decl) : bool :=
  offsets_eqb (struct_offsets_under (abi_alignof a) d) (struct_offsets d)
  && Nat.eqb (struct_sizeof_under (abi_alignof a) d) (struct_sizeof d).

Fixpoint lookup {A : Type} (name : string) (l : list (string * A)) : option A :=
  match l with
  | [] => None
  | (n, a) :: rest => if String.eqb n name then Some a else lookup name rest
  end.

Definition offsetof (d : struct_decl) (name : string) : option nat :=
  lookup name (struct_offsets d).

Definition member_type (d : struct_decl) (name : string) : option ctype :=
  lookup name d.

(** Bytes that belong to no member: padding the compiler would insert. *)
Definition hidden_padding (d : struct_decl) : nat :=
  struct_sizeof d - fold_right (fun m n => sizeof (snd m) + n) 0 d.

Local Close Scope nat_scope.

(** ** Values of the declared types *)

Record vector_float2 : Type := simd_make_float2
  { v2_x : float; v2_y : float }.

Record vector_float4 : Type := simd_make_float4
  { v4_x : float; v4_y : float; v4_z : float; v4_w : float }.

(** A C array of exactly four elements, as in [gradientColors[4]]. *)
Inductive array4 (A : Type) : Type :=
| Array4 (e0 e1 e2 e3 : A).
Arguments Array4 {A} e0 e1 e2 e3.

Definition array4_to_list {A : Type} (a : array4 A) : list A :=
  let 'Array4 e0 e1 e2 e3 := a in [e0; e1; e2; e3].

Definition array4_capacity {A : Type} (a : array4 A) : nat :=
  List.length (array4_to_list a).

(** [a[i]]; an index past the end has no defined value in C. *)
Definition array4_get {A : Type} (a : array4 A) (i : nat) : option A :=
  nth_error (array4_to_list a) i.

(** [a[i] = v]; an index past the end is not a defined store. *)
Definition array4_set {A : Type} (a : array4 A) (i : nat) (v : A)
  : option (array4 A) :=
  let 'Array4 e0 e1 e2 e3 := a in
  match i with
  | 0%nat => Some (Array4 v e1 e2 e3)
  | 1%nat => Some (Array4 e0 v e2 e3)
  | 2%nat => Some (Array4 e0 e1 v e3)
  | 3%nat => Some (Array4 e0 e1 e2 v)
  | _ => None
  end.

Record DotInstanceUniform : Type := mkDotInstanceUniform
  { center : vector_float2 }.

Record FrameUniforms : Type := mkFrameUniforms
  { canvasSize : vector_float2;
    dotRadius : float;
    smoothing : float;
    gradientStart : vector_float2;
    gradientEnd : vector_float2;
    time : float;
    driftStrength : float;
    gradientStopCount : uint;
    _padding : uint;
    gradientStops : vector_float4;
    gradientColors : array4 vector_float4 }.

Record SimulationDotState : Type := mkSimulationDotState
  { offset : vector_float2;
    velocity : vector_float2 }.

Record SimulationTouch : Type := mkSimulationTouch
  { position : vector_float4 }.

Record SimulationUniforms : Type := mkSimulationUniforms
  { timeSpring : vector_float4;
    displacementMass : vector_float4;
    touchCount : uint;
    dotCount : uint;
    padding0 : uint;
    padding1 : uint }.

(** ** Memory representation

    A value is the sequence of its 32-bit scalars in declaration order;
    each scalar is four little-endian bytes. *)

Definition float2_words (v : vector_float2) : list word32 :=
  [v2_x v; v2_y v].

Definition float4_words (v : vector_float4) : list word32 :=
  [v4_x v; v4_y v; v4_z v; v4_w v].

Definition float4x4_words (a : array4 vector_float4) : list word32 :=
  flat_map float4_words (array4_to_list a).

(** The members of a value with their scalars, in declaration order. *)

Local Open Scope string_scope.

Definition DotInstanceUniform_members (s : DotInstanceUniform)
  : list (string * list word32) :=
  [("center", float2_words (center s))].

Definition FrameUniforms_members (s : FrameUniforms)
  : list (string * list word32) :=
  [("canvasSize", float2_words (canvasSize s));
   ("dotRadius", [dotRadius s]);
   ("smoothing", [smoothing s]);
   ("gradientStart", float2_words (gradientStart s));
   ("gradientEnd", float2_words (gradientEnd s));
   ("time", [time s]);
   ("driftStrength", [driftStrength s]);
   ("gradientStopCount", [gradientStopCount s]);
   ("_padding", [_padding s]);
   ("gradientStops", float4_words (gradientStops s));
   ("gradientColors", float4x4_words (gradientColors s))].

Definition SimulationDotState_members (s : SimulationDotState)
  : list (string * list word32) :=
  [("offset", float2_words (offset s));
   ("velocity", float2_words (velocity s))].

Definition SimulationTouch_members (s : SimulationTouch)
  : list (string * list word32) :=
  [("position", float4_words (position s))].

Definition SimulationUniforms_members (s : SimulationUniforms)
  : list (string * list word32) :=
  [("timeSpring", float4_words (timeSpring s));
   ("displacementMass", float4_words (displacementMass s));
   ("touchCount", [touchCount s]);
   ("dotCount", [dotCount s]);
   ("padding0", [padding0 s]);
   ("padding1", [padding1 s])].

Local Close Scope string_scope.

Definition members_words (ms : list (string * list word32)) : list word32 :=
  List.concat (map snd ms).

Definition DotInstanceUniform_words (s : DotInstanceUniform) : list word32 :=
  members_words (DotInstanceUniform_members s).

Definition FrameUniforms_words (s : FrameUniforms) : list word32 :=
  members_words (FrameUniforms_members s).

Definition SimulationDotState_words (s : SimulationDotState) : list word32 :=
  members_words (SimulationDotState_members s).

Definition SimulationTouch_words (s : SimulationTouch) : list word32 :=
  members_words (SimulationTouch_members s).

Definition SimulationUniforms_words (s : SimulationUniforms) : list word32 :=
  members_words (SimulationUniforms_members s).

(** Reading the scalars back through the struct definition. *)

Definition DotInstanceUniform_of_words (ws : list word32)
  : option DotInstanceUniform :=
  match ws with
  | [cx; cy] => Some (mkDotInstanceUniform (simd_make_float2 cx cy))
  | _ => None
  end.

Definition FrameUniforms_of_words (ws : list word32) : option FrameUniforms :=
  match ws with
  | [sx; sy; r; sm; gsx; gsy; gex; gey; t; d; n; p; s0; s1; s2; s3;
     c0x; c0y; c0z; c0w; c1x; c1y; c1z; c1w;
     c2x; c2y; c2z; c2w; c3x; c3y; c3z; c3w] =>
      Some (mkFrameUniforms
              (simd_make_float2 sx sy) r sm
              (simd_make_float2 gsx gsy) (simd_make_float2 gex gey)
              t d n p
              (simd_make_float4 s0 s1 s2 s3)
              (Array4 (simd_make_float4 c0x c0y c0z c0w)
                      (simd_make_float4 c1x c1y c1z c1w)
                      (simd_make_float4 c2x c2y c2z c2w)
                      (simd_make_float4 c3x c3y c3z c3w)))
  | _ => None
  end.

Definition SimulationDotState_of_words (ws : list word32)
  : option SimulationDotState :=
  match ws with
  | [ox; oy; vx; vy] =>
      Some (mkSimulationDotState (simd_make_float2 ox oy)
                                 (simd_make_float2 vx vy))
  | _ => None
  end.

Definition SimulationTouch_of_words (ws : list word32)
  : option SimulationTouch :=
  match ws with
  | [px; py; pz; pw] => Some (mkSimulationTouch (simd_make_float4 px py pz pw))
  | _ => None
  end.

Definition SimulationUniforms_of_words (ws : list word32)
  : option SimulationUniforms :=
  match ws with
  | [dt; k; c; r; md; im; ps; un; tc; dc; p0; p1] =>
      Some (mkSimulationUniforms (simd_make_float4 dt k c r)
                                 (simd_make_float4 md im ps un)
                                 tc dc p0 p1)
  | _ => None
  end.

(** Scalars to bytes and back. *)

Definition word_bytes (w : word32) : list byte :=
  le_split 4 (word.unsigned w).

Definition bytes_word (bs : list byte) : word32 :=
  word.of_Z (le_combine bs).

Definition words_bytes (ws : list word32) : list byte :=
  flat_map word_bytes ws.

Fixpoint bytes_words (n : nat) (bs : list byte) : list word32 :=
  match n with
  | O => []
  | S n' => bytes_word (firstn 4 bs) :: bytes_words n' (skipn 4 bs)
  end.

(** [slice off len mem]: the [len] bytes of [mem] starting at [off]. *)
Definition slice {A : Type} (off len : nat) (mem : list A) : list A :=
  firstn len (skipn off mem).

(** [store off bs mem]: [mem] with [bs] copied at [off] (a [memcpy] into
    the buffer); a copy that would run past the end is not performed. *)
Definition store {A : Type} (off : nat) (bs mem : list A) : option (list A) :=
  if (off + List.length bs <=? List.length mem)%nat
  then Some (firstn off mem ++ bs ++ skipn (off + List.length bs) mem)
  else None.

(** Writing a struct to a buffer and reading a struct from a buffer of at
    least [sizeof] bytes. *)
Section Codec.
Variable S : Type.
Variable decl : struct_decl.
Variable to_words : S -> list word32.
Variable of_words : list word32 -> option S.

Definition encode_with (s : S) : list byte := words_bytes (to_words s).

Definition decode_with (mem : list byte) : option S :=
  if (struct_sizeof decl <=? List.length mem)%nat
  then of_words (bytes_words (struct_sizeof decl / 4) mem)
  else None.
End Codec.

Definition DotInstanceUniform_encode :=
  encode_with DotInstanceUniform DotInstanceUniform_words.
Definition DotInstanceUniform_decode :=
  decode_with DotInstanceUniform DotInstanceUniform_decl
              DotInstanceUniform_of_words.

Definition FrameUniforms_encode :=
  encode_with FrameUniforms FrameUniforms_words.
Definition FrameUniforms_decode :=
  decode_with FrameUniforms FrameUniforms_decl FrameUniforms_of_words.

Definition SimulationDotState_encode :=
  encode_with SimulationDotState SimulationDotState_words.
Definition SimulationDotState_decode :=
  decode_with SimulationDotState SimulationDotState_decl
              SimulationDotState_of_words.

Definition SimulationTouch_encode :=
  encode_with SimulationTouch SimulationTouch_words.
Definition SimulationTouch_decode :=
  decode_with SimulationTouch SimulationTouch_decl SimulationTouch_of_words.

Definition SimulationUniforms_encode :=
  encode_with SimulationUniforms SimulationUniforms_words.
Definition SimulationUniforms_decode :=
  decode_with SimulationUniforms SimulationUniforms_decl
              SimulationUniforms_of_words.

(** ** Member stores

    [set_m v s] is the value of [s] after the assignment [s.m = v]. *)

Definition set_canvasSize (v : vector_float2) (s : FrameUniforms) :=
  mkFrameUniforms v (dotRadius s) (smoothing s) (gradientStart s)
    (gradientEnd s) (time s) (driftStrength s) (gradientStopCount s)
    (_padding s) (gradientStops s) (gradientColors s).

Definition set_dotRadius (v : float) (s : FrameUniforms) :=
  mkFrameUniforms (canvasSize s) v (smoothing s) (gradientStart s)
    (gradientEnd s) (time s) (driftStrength s) (gradientStopCount s)
    (_padding s) (gradientStops s) (gradientColors s).

Definition set_smoothing (v : float) (s : FrameUniforms) :=
  mkFrameUniforms (canvasSize s) (dotRadius s) v (gradientStart s)
    (gradientEnd s) (time s) (driftStrength s) (gradientStopCount s)
    (_padding s) (gradientStops s) (gradientColors s).

Definition set_gradientStart (v : vector_float2) (s : FrameUniforms) :=
  mkFrameUniforms (canvasSize s) (dotRadius s) (smoothing s) v
    (gradientEnd s) (time s) (driftStrength s) (gradientStopCount s)
    (_padding s) (gradientStops s) (gradientColors s).

Definition set_gradientEnd (v : vector_float2) (s : FrameUniforms) :=
  mkFrameUniforms (canvasSize s) (dotRadius s) (smoothing s)
    (gradientStart s) v (time s) (driftStrength s) (gradientStopCount s)
    (_padding s) (gradientStops s) (gradientColors s).

Definition set_time (v : float) (s : FrameUniforms) :=
  mkFrameUniforms (canvasSize s) (dotRadius s) (smoothing s)
    (gradientStart s) (gradientEnd s) v (driftStrength s)
    (gradientStopCount s) (_padding s) (gradientStops s) (gradientColors s).

Definition set_driftStrength (v : float) (s : FrameUniforms) :=
  mkFrameUniforms (canvasSize s) (dotRadius s) (smoothing s)
    (gradientStart s) (gradientEnd s) (time s) v
    (gradientStopCount s) (_padding s) (gradientStops s) (gradientColors s).

Definition set_gradientStopCount (v : uint) (s : FrameUniforms) :=
  mkFrameUniforms (canvasSize s) (dotRadius s) (smoothing s)
    (gradientStart s) (gradientEnd s) (time s) (driftStrength s)
    v (_padding s) (gradientStops s) (gradientColors s).

Definition set__padding (v : uint) (s : FrameUniforms) :=
  mkFrameUniforms (canvasSize s) (dotRadius s) (smoothing s)
    (gradientStart s) (gradientEnd s) (time s) (driftStrength s)
    (gradientStopCount s) v (gradientStops s) (gradientColors s).

Definition set_gradientStops (v : vector_float4) (s : FrameUniforms) :=
  mkFrameUniforms (canvasSize s) (dotRadius s) (smoothing s)
    (gradientStart s) (gradientEnd s) (time s) (driftStrength s)
    (gradientStopCount s) (_padding s) v (gradientColors s).

Definition set_gradientColors (v : array4 vector_float4) (s : FrameUniforms) :=
  mkFrameUniforms (canvasSize s) (dotRadius s) (smoothing s)
    (gradientStart s) (gradientEnd s) (time s) (driftStrength s)
    (gradientStopCount s) (_padding s) (gradientStops s) v.

(** [s.gradientColors[i] = v]. *)
Definition set_gradientColor (i : nat) (v : vector_float4) (s : FrameUniforms)
  : option FrameUniforms :=
  match array4_set (gradientColors s) i v with
  | Some a => Some (set_gradientColors a s)
  | None => None
  end.

Definition set_timeSpring (v : vector_float4) (s : SimulationUniforms) :=
  mkSimulationUniforms v (displacementMass s) (touchCount s) (dotCount s)
    (padding0 s) (padding1 s).

Definition set_displacementMass (v : vector_float4) (s : SimulationUniforms) :=
  mkSimulationUniforms (timeSpring s) v (touchCount s) (dotCount s)
    (padding0 s) (padding1 s).

Definition set_touchCount (v : uint) (s : SimulationUniforms) :=
  mkSimulationUniforms (timeSpring s) (displacementMass s) v (dotCount s)
    (padding0 s) (padding1 s).

Definition set_dotCount (v : uint) (s : SimulationUniforms) :=
  mkSimulationUniforms (timeSpring s) (displacementMass s) (touchCount s) v
    (padding0 s) (padding1 s).

Definition set_padding0 (v : uint) (s : SimulationUniforms) :=
  mkSimulationUniforms (timeSpring s) (displacementMass s) (touchCount s)
    (dotCount s) v (padding1 s).

Definition set_padding1 (v : uint) (s : SimulationUniforms) :=
  mkSimulationUniforms (timeSpring s) (displacementMass s) (touchCount s)
    (dotCount s) (padding0 s) v.

(** Component stores of a [vector_float4]: [v.x = a], ..., [v.w = a]. *)
Definition set_v4_x (a : float) (v : vector_float4) :=
  simd_make_float4 a (v4_y v) (v4_z v) (v4_w v).
Definition set_v4_y (a : float) (v : vector_float4) :=
  simd_make_float4 (v4_x v) a (v4_z v) (v4_w v).
Definition set_v4_z (a : float) (v : vector_float4) :=
  simd_make_float4 (v4_x v) (v4_y v) a (v4_w v).
Definition set_v4_w (a : float) (v : vector_float4) :=
  simd_make_float4 (v4_x v) (v4_y v) (v4_z v) a.

(** ** Float constants

    A decimal constant denotes the binary32 number nearest to it (ties
    to even).  [m / 10^k] is obtained by one correctly rounded division
    of two integers that binary32 represents exactly. *)
Module F32.
Definition prec : Z := 24.
Definition emax : Z := 128.

Definition of_int (m : Z) : spec_float :=
  binary_normalize prec emax m 0 false.

Definition of_decimal (m : Z) (k : nat) : spec_float :=
  SFdiv prec emax (of_int m) (of_int (10 ^ Z.of_nat k)).

Definition sign_bit (s : bool) : Z := if s then 2 ^ 31 else 0.

(** The binary32 encoding: sign, 8 exponent bits, 23 fraction bits. *)
Definition encoding (f : spec_float) : Z :=
  match f with
  | S754_zero s => sign_bit s
  | S754_infinity s => sign_bit s + 255 * 2 ^ 23
  | S754_nan => 255 * 2 ^ 23 + 2 ^ 22
  | S754_finite s m e =>
      sign_bit s +
      (if Z.pos m <? 2 ^ 23
       then Z.pos m
       else (e + 150) * 2 ^ 23 + (Z.pos m - 2 ^ 23))
  end.

Definition bits (f : spec_float) : float := word.of_Z (encoding f).

Definition decimal (m : Z) (k : nat) : float := bits (of_decimal m k).
End F32.

(** ** Initialisation

    [SimulationUniforms_zero] is the value of [SimulationUniforms u = {0}]
    (and of Swift's [SimulationUniforms()]).  [SimulationUniforms_init]
    is an initialiser that names the four parameter members: C leaves
    every member without an initialiser at zero. *)

Definition float4_zero : vector_float4 :=
  simd_make_float4 (word.of_Z 0) (word.of_Z 0) (word.of_Z 0) (word.of_Z 0).

Definition SimulationUniforms_zero : SimulationUniforms :=
  mkSimulationUniforms float4_zero float4_zero
                       (uint_of_Z 0) (uint_of_Z 0) (uint_of_Z 0) (uint_of_Z 0).

Definition SimulationUniforms_init
    (ts dm : vector_float4) (tc dc : Z) : SimulationUniforms :=
  set_dotCount (uint_of_Z dc)
    (set_touchCount (uint_of_Z tc)
       (set_displacementMass dm
          (set_timeSpring ts SimulationUniforms_zero))).

(** The values of the end-to-end scenario. *)
Definition scenario_timeSpring : vector_float4 :=
  simd_make_float4 (F32.decimal 16 3) (F32.decimal 180 0)
                   (F32.decimal 12 0) (F32.decimal 40 0).

Definition scenario_displacementMass : vector_float4 :=
  simd_make_float4 (F32.decimal 24 0) (F32.decimal 2 0)
                   (F32.decimal 1 0) (F32.decimal 0 0).

Definition scenario_uniforms : SimulationUniforms :=
  SimulationUniforms_init scenario_timeSpring scenario_displacementMass 1 100.

(** Stores done on the buffer rather than on the value.
    [store_member d name bs mem] overwrites member [name] with its new
    [sizeof] bytes [bs]; [store_scalar d name i bs mem] overwrites the
    [i]-th scalar of the member (a vector component). *)
Definition store_member (d : struct_decl) (name : string)
    (bs mem : list byte) : option (list byte) :=
  match offsetof d name, member_type d name with
  | Some o, Some t =>
      if (List.length bs =? sizeof t)%nat then store o bs mem else None
  | _, _ => None
  end.

Definition store_scalar (d : struct_decl) (name : string) (i : nat)
    (bs mem : list byte) : option (list byte) :=
  match offsetof d name, member_type d name with
  | Some o, Some t =>
      if ((i <? scalars t) && (List.length bs =? 4))%nat
      then store (o + 4 * i) bs mem
      else None
  | _, _ => None
  end.

(** ** What it means for a codec to follow the declared layout *)

(** The bytes of member [m] are found at its declared offset. *)
Definition member_at (d : struct_decl) (ms : list (string * list word32))
    (mem : list byte) (m : member) : Prop :=
  match offsetof d (fst m), lookup (fst m) ms with
  | Some o, Some ws => slice o (sizeof (snd m)) mem = words_bytes ws
  | _, _ => False
  end.

(** [size] and [offs] are the size and the member offsets of [d]; no byte
    of the struct lies outside a member; a written value occupies [size]
    bytes, holds each member at its offset, and is read back unchanged
    from any buffer that starts with it; conversely a value read from a
    buffer, written again, gives the [size] bytes it was read from. *)
Definition layout_agrees {S : Type} (d : struct_decl)
    (members : S -> list (string * list word32))
    (encode : S -> list byte) (decode : list byte -> option S)
    (size : nat) (offs : list (string * nat)) : Prop :=
  struct_sizeof d = size /\
  struct_offsets d = offs /\
  hidden_padding d = 0%nat /\
  forall s : S,
    List.length (encode s) = size /\
    map fst (members s) = map fst d /\
    Forall (member_at d (members s) (encode s)) d /\
    (forall rest : list byte, decode (encode s ++ rest) = Some s) /\
    (forall mem : list byte,
        decode mem = Some s -> encode s = firstn size mem).

(** ** Sample values *)

Definition float2_zero : vector_float2 :=
  simd_make_float2 (word.of_Z 0) (word.of_Z 0).

(** Opaque red, green, blue and white as RGBA floats. *)
Definition red : vector_float4 :=
  simd_make_float4 (F32.decimal 1 0) (F32.decimal 0 0)
                   (F32.decimal 0 0) (F32.decimal 1 0).
Definition green : vector_float4 :=
  simd_make_float4 (F32.decimal 0 0) (F32.decimal 1 0)
                   (F32.decimal 0 0) (F32.decimal 1 0).
Definition blue : vector_float4 :=
  simd_make_float4 (F32.decimal 0 0) (F32.decimal 0 0)
                   (F32.decimal 1 0) (F32.decimal 1 0).
Definition white : vector_float4 :=
  simd_make_float4 (F32.decimal 1 0) (F32.decimal 1 0)
                   (F32.decimal 1 0) (F32.decimal 1 0).

(** A frame with [n] stops over the four sample colours. *)
Definition sample_frame (n : Z) : FrameUniforms :=
  mkFrameUniforms
    (simd_make_float2 (F32.decimal 390 0) (F32.decimal 844 0))
    (F32.decimal 3 0) (F32.decimal 1 0)
    float2_zero (simd_make_float2 (F32.decimal 1 0) (F32.decimal 1 0))
    (F32.decimal 0 0) (F32.decimal 25 2)
    (uint_of_Z n) (uint_of_Z 0)
    (simd_make_float4 (F32.decimal 0 0) (F32.decimal 33 2)
                      (F32.decimal 66 2) (F32.decimal 1 0))
    (Array4 red green blue white).

Definition zero_buffer (n : nat) : list byte := repeat Byte.x00 n.

(** ** Roles the header's comments give the vector components *)

Definition dt (u : SimulationUniforms) : float := v4_x (timeSpring u).
Definition stiffness (u : SimulationUniforms) : float := v4_y (timeSpring u).
Definition damping (u : SimulationUniforms) : float := v4_z (timeSpring u).
Definition effectRadius (u : SimulationUniforms) : float :=
  v4_w (timeSpring u).
Definition maxDisplacement (u : SimulationUniforms) : float :=
  v4_x (displacementMass u).
Definition invMass (u : SimulationUniforms) : float :=
  v4_y (displacementMass u).
Definition pixelScale (u : SimulationUniforms) : float :=
  v4_z (displacementMass u).
Definition unused (u : SimulationUniforms) : float :=
  v4_w (displacementMass u).

(** ** The records as the specification describes them

    The prose names, for each member, what kind of datum it is.  [shape]
    is that vocabulary; [shape_of] reads it off a declared C type. *)

Inductive shape : Set :=
| FloatScalar                       (* a 32-bit float *)
| Count                             (* a 32-bit unsigned count or padding *)
| FloatVector (components : nat)    (* a packed float vector *)
| Several (capacity : nat) (each : shape).

Fixpoint shape_of (t : ctype) : shape :=
  match t with
  | Tfloat => FloatScalar
  | Tuint => Count
  | Tvector_float2 => FloatVector 2
  | Tvector_float4 => FloatVector 4
  | Tarray elem count => Several count (shape_of elem)
  end.

Definition decl_shape (d : struct_decl) : list (string * shape) :=
  map (fun m => (fst m, shape_of (snd m))) d.

Local Open Scope string_scope.

(** FrameUniforms in the specification's words: canvas size (2
    components), dot radius, edge-smoothing width, gradient start and end
    points, elapsed time, reserved drift strength, count of active
    gradient stops, explicit padding, packed vector of stop positions, up
    to 4 gradient colours. *)
Definition spec_FrameUniforms : list (string * shape) :=
  [("canvasSize", FloatVector 2);
   ("dotRadius", FloatScalar);
   ("smoothing", FloatScalar);
   ("gradientStart", FloatVector 2);
   ("gradientEnd", FloatVector 2);
   ("time", FloatScalar);
   ("driftStrength", FloatScalar);
   ("gradientStopCount", Count);
   ("_padding", Count);
   ("gradientStops", FloatVector 4);
   ("gradientColors", Several 4 (FloatVector 4))].

(** SimulationUniforms in the specification's words: a 4-component vector
    of time step and spring/damping coefficients, a 4-component vector of
    max-displacement, inverse mass and pixel-scale, the count of active
    touches, the count of dots, two explicit padding fields. *)
Definition spec_SimulationUniforms : list (string * shape) :=
  [("timeSpring", FloatVector 4);
   ("displacementMass", FloatVector 4);
   ("touchCount", Count);
   ("dotCount", Count);
   ("padding0", Count);
   ("padding1", Count)].

Local Close Scope string_scope.

Fixpoint shape_scalars (sh : shape) : nat :=
  match sh with
  | FloatScalar => 1
  | Count => 1
  | FloatVector n => n
  | Several n each => n * shape_scalars each
  end.

Definition total_scalars (l : list (string * shape)) : nat :=
  fold_right (fun m n => (shape_scalars (snd m) + n)%nat) 0%nat l.

(** A parameter block whose unused component holds 0.5. *)
Definition sample_uniforms : SimulationUniforms :=
  set_displacementMass
    (set_v4_w (F32.decimal 5 1) scenario_displacementMass)
    scenario_uniforms.

(** ** Arrays of a struct in a buffer

    The per-dot and per-touch structs are the elements of the buffers the
    binding indices name ([dotCount] and [touchCount] count them).  A C
    array of a struct is its elements one after the other, [sizeof]
    bytes apart. *)

Definition set_nth {A : Type} (i : nat) (v : A) (l : list A) : list A :=
  firstn i l ++ v :: skipn (Datatypes.S i) l.

Section Buffers.
Variable T : Type.
Variable size : nat.
Variable encode : T -> list byte.
Variable decode : list byte -> option T.

Definition encode_array (l : list T) : list byte := flat_map encode l.

(** [buf[i]], read through the struct definition. *)
Definition read_at (i : nat) (mem : list byte) : option T :=
  decode (skipn (i * size) mem).

(** [buf[i] = v]. *)
Definition write_at (i : nat) (v : T) (mem : list byte)
  : option (list byte) :=
  store (i * size) (encode v) mem.
End Buffers.

(** ** Alignment of members inside arrays *)

(** Every member offset and the struct size are multiples of the
    alignments involved, and every member ends inside the struct. *)
Definition member_aligned (d : struct_decl) (m : member) : bool :=
  match offsetof d (fst m) with
  | Some o =>
      Nat.eqb (o mod alignof (snd m)) 0
      && Nat.eqb (struct_alignof d mod alignof (snd m)) 0
      && Nat.leb (o + sizeof (snd m)) (struct_sizeof d)
  | None => false
  end.

Definition array_aligned (d : struct_decl) : bool :=
  Nat.eqb (struct_sizeof d mod struct_alignof d) 0
  && forallb (member_aligned d) d.

(** ** Exact codecs

    A buffer shorter than [size] does not read as a struct; every buffer
    of at least [size] bytes does, and the struct read has the first
    [size] bytes of the buffer as its bytes; distinct structs have
    distinct bytes. *)
Definition codec_exact {T : Type} (size : nat)
    (encode : T -> list byte) (decode : list byte -> option T) : Prop :=
  (forall mem, (List.length mem < size)%nat -> decode mem = None) /\
  (forall mem, (size <= List.length mem)%nat ->
     exists s, decode mem = Some s /\ encode s = firstn size mem) /\
  (forall s s', encode s = encode s' -> s = s').

(** An array of structs in a buffer behaves like the list of its
    elements: element [i] reads as the [i]-th struct and an index past
    the end reads as nothing; a write inside the array replaces element
    [i] and no other, keeping the size; a write past the end is not
    performed. *)
Definition array_exact {T : Type} (size : nat)
    (encode : T -> list byte) (decode : list byte -> option T) : Prop :=
  forall (l : list T) (i : nat) (v : T),
    List.length (encode_array T encode l) = (List.length l * size)%nat /\
    read_at T size decode i (encode_array T encode l) = nth_error l i /\
    ((i < List.length l)%nat ->
     exists mem',
       write_at T size encode i v (encode_array T encode l) = Some mem' /\
       List.length mem' = (List.length l * size)%nat /\
       forall j, read_at T size decode j mem'
                 = if Nat.eqb j i then Some v else nth_error l j) /\
    ((List.length l <= i)%nat ->
     write_at T size encode i v (encode_array T encode l) = None).

(** Three dots: at rest, displaced, and moving. *)
Definition sample_states : list SimulationDotState :=
  [mkSimulationDotState float2_zero float2_zero;
   mkSimulationDotState
     (simd_make_float2 (F32.decimal 15 1) (F32.decimal 2 0)) float2_zero;
   mkSimulationDotState
     float2_zero (simd_make_float2 (F32.decimal 3 0) (F32.decimal 25 2))].

Definition resting_state : SimulationDotState :=
  mkSimulationDotState float2_zero float2_zero.

(** * Properties *)

(** ** Scalars and byte strings *)

Lemma word_bytes_length (w : word32) : List.length (word_bytes w) = 4%nat.
Proof. apply length_le_split. Qed.

Lemma bytes_word_bytes (w : word32) : bytes_word (word_bytes w) = w.
Proof.
  unfold bytes_word, word_bytes.
  rewrite le_combine_split.
  change (Z.of_nat 4 * 8) with 32.
  rewrite <- (word.of_Z_unsigned w) at 2.
  f_equal. apply Z.mod_small. apply (word.unsigned_range w).
Qed.

Lemma words_bytes_length (ws : list word32) :
  List.length (words_bytes ws) = (4 * List.length ws)%nat.
Proof.
  induction ws as [|w ws IH]; [reflexivity|].
  unfold words_bytes in *. cbn [flat_map].
  rewrite length_app, word_bytes_length, IH. cbn [List.length]. lia.
Qed.

Lemma words_bytes_app (us vs : list word32) :
  words_bytes (us ++ vs) = words_bytes us ++ words_bytes vs.
Proof. apply flat_map_app. Qed.

Lemma firstn_word_bytes (w : word32) (rest : list byte) :
  firstn 4 (word_bytes w ++ rest) = word_bytes w.
Proof.
  rewrite firstn_app, word_bytes_length, Nat.sub_diag, firstn_O, app_nil_r.
  apply firstn_all2. rewrite word_bytes_length. lia.
Qed.

Lemma skipn_word_bytes (w : word32) (rest : list byte) :
  skipn 4 (word_bytes w ++ rest) = rest.
Proof.
  rewrite skipn_app, word_bytes_length, Nat.sub_diag.
  rewrite skipn_all2 by (rewrite word_bytes_length; lia).
  reflexivity.
Qed.

(** Reading back the scalars just written, whatever follows them. *)
Lemma bytes_words_bytes (ws : list word32) (rest : list byte) :
  bytes_words (List.length ws) (words_bytes ws ++ rest) = ws.
Proof.
  induction ws as [|w ws IH]; [reflexivity|].
  unfold words_bytes in *. cbn [flat_map List.length bytes_words].
  rewrite <- app_assoc, firstn_word_bytes, skipn_word_bytes.
  rewrite bytes_word_bytes, IH. reflexivity.
Qed.

Lemma skipn_words_bytes (i : nat) (ws : list word32) :
  skipn (4 * i) (words_bytes ws) = words_bytes (skipn i ws).
Proof.
  revert ws. induction i as [|i IH]; intros ws; [reflexivity|].
  destruct ws as [|w ws].
  - rewrite !skipn_nil. reflexivity.
  - replace (4 * S i)%nat with (4 * i + 4)%nat by lia.
    rewrite <- skipn_skipn.
    unfold words_bytes in *. cbn [flat_map].
    rewrite skipn_word_bytes. apply IH.
Qed.

Lemma firstn_words_bytes (n : nat) (ws : list word32) :
  firstn (4 * n) (words_bytes ws) = words_bytes (firstn n ws).
Proof.
  revert ws. induction n as [|n IH]; intros ws; [reflexivity|].
  destruct ws as [|w ws].
  - rewrite !firstn_nil. reflexivity.
  - replace (4 * S n)%nat with (4 + 4 * n)%nat by lia.
    unfold words_bytes in *. cbn [flat_map].
    rewrite firstn_app, word_bytes_length.
    rewrite firstn_all2 by (rewrite word_bytes_length; lia).
    replace (4 + 4 * n - 4)%nat with (4 * n)%nat by lia.
    rewrite IH. reflexivity.
Qed.

(** A byte range on a scalar boundary is a range of scalars. *)
Lemma slice_words_bytes (i n : nat) (ws : list word32) :
  slice (4 * i) (4 * n) (words_bytes ws) = words_bytes (slice i n ws).
Proof.
  unfold slice. rewrite skipn_words_bytes. apply firstn_words_bytes.
Qed.

(** A copy on a scalar boundary is a copy of scalars. *)
Lemma store_words_bytes (i : nat) (vs ws : list word32) :
  store (4 * i) (words_bytes vs) (words_bytes ws)
  = option_map words_bytes (store i vs ws).
Proof.
  unfold store. rewrite !words_bytes_length.
  replace (4 * i + 4 * List.length vs)%nat
    with (4 * (i + List.length vs))%nat by lia.
  destruct (Nat.leb_spec (i + List.length vs) (List.length ws)) as [Hle|Hgt].
  - replace (4 * (i + List.length vs) <=? 4 * List.length ws)%nat with true
      by (symmetry; apply Nat.leb_le; lia).
    cbn [option_map]. f_equal.
    rewrite !words_bytes_app, firstn_words_bytes, skipn_words_bytes.
    reflexivity.
  - replace (4 * (i + List.length vs) <=? 4 * List.length ws)%nat with false
      by (symmetry; apply Nat.leb_gt; lia).
    reflexivity.
Qed.

(** ** Enumerations *)

Lemma BufferIndex_all_complete (e : BufferIndex) : In e BufferIndex_all.
Proof. destruct e; cbn; auto. Qed.

Lemma SimulationBufferIndex_all_complete (e : SimulationBufferIndex) :
  In e SimulationBufferIndex_all.
Proof. destruct e; cbn; auto 6. Qed.

Lemma BufferIndex_raw_range (z : Z) :
  (exists e, BufferIndex_raw e = z) <-> 0 <= z < 3.
Proof.
  split.
  - intros [e <-]. destruct e; cbn; lia.
  - intros Hz.
    assert (z = 0 \/ z = 1 \/ z = 2) as [-> | [-> | ->]] by lia.
    + now exists BufferIndexVertices.
    + now exists BufferIndexInstances.
    + now exists BufferIndexUniforms.
Qed.

Lemma SimulationBufferIndex_raw_range (z : Z) :
  (exists e, SimulationBufferIndex_raw e = z) <-> 0 <= z < 5.
Proof.
  split.
  - intros [e <-]. destruct e; cbn; lia.
  - intros Hz.
    assert (z = 0 \/ z = 1 \/ z = 2 \/ z = 3 \/ z = 4)
      as [-> | [-> | [-> | [-> | ->]]]] by lia.
    + now exists SimulationBufferIndexRestPositions.
    + now exists SimulationBufferIndexStates.
    + now exists SimulationBufferIndexInstances.
    + now exists SimulationBufferIndexUniforms.
    + now exists SimulationBufferIndexTouches.
Qed.

Lemma BufferIndex_raw_inj (a b : BufferIndex) :
  BufferIndex_raw a = BufferIndex_raw b -> a = b.
Proof. destruct a, b; cbn; intros H; congruence || discriminate H. Qed.

Lemma SimulationBufferIndex_raw_inj (a b : SimulationBufferIndex) :
  SimulationBufferIndex_raw a = SimulationBufferIndex_raw b -> a = b.
Proof. destruct a, b; cbn; intros H; congruence || discriminate H. Qed.

(** C1. [BufferIndex] has exactly the values Vertices=0, Instances=1,
    Uniforms=2 and [SimulationBufferIndex] exactly RestPositions=0,
    States=1, Instances=2, Uniforms=3, Touches=4: the enumerators taken in
    declaration order are numbered 0,1,2 and 0,1,2,3,4, the lists hold
    every enumerator, the set of values is the full interval (no gap), and
    distinct enumerators have distinct values (no renumbering collision).
    Every constant fits the 32-bit backing type of the Metal side. *)
Theorem enum_values_exact :
  (BufferIndex_raw BufferIndexVertices = 0 /\
   BufferIndex_raw BufferIndexInstances = 1 /\
   BufferIndex_raw BufferIndexUniforms = 2) /\
  (SimulationBufferIndex_raw SimulationBufferIndexRestPositions = 0 /\
   SimulationBufferIndex_raw SimulationBufferIndexStates = 1 /\
   SimulationBufferIndex_raw SimulationBufferIndexInstances = 2 /\
   SimulationBufferIndex_raw SimulationBufferIndexUniforms = 3 /\
   SimulationBufferIndex_raw SimulationBufferIndexTouches = 4) /\
  (map BufferIndex_raw BufferIndex_all = [0; 1; 2] /\
   map SimulationBufferIndex_raw SimulationBufferIndex_all = [0; 1; 2; 3; 4]) /\
  ((forall e, In e BufferIndex_all) /\
   (forall e, In e SimulationBufferIndex_all)) /\
  ((forall z, (exists e, BufferIndex_raw e = z) <-> 0 <= z < 3) /\
   (forall z, (exists e, SimulationBufferIndex_raw e = z) <-> 0 <= z < 5)) /\
  ((forall a b, BufferIndex_raw a = BufferIndex_raw b -> a = b) /\
   (forall a b,
       SimulationBufferIndex_raw a = SimulationBufferIndex_raw b -> a = b)) /\
  (forallb fits_int32 (map BufferIndex_raw BufferIndex_all) = true /\
   forallb fits_int32
     (map SimulationBufferIndex_raw SimulationBufferIndex_all) = true).
Proof.
  split; [repeat split|].
  split; [repeat split|].
  split; [split; reflexivity|].
  split; [split|].
  - apply BufferIndex_all_complete.
  - apply SimulationBufferIndex_all_complete.
  - split; [split|split; [split|split; reflexivity]].
    + apply BufferIndex_raw_range.
    + apply SimulationBufferIndex_raw_range.
    + apply BufferIndex_raw_inj.
    + apply SimulationBufferIndex_raw_inj.
Qed.

(** ** Codecs *)

Lemma word_bytes_word (bs : list byte) :
  List.length bs = 4%nat -> word_bytes (bytes_word bs) = bs.
Proof.
  intros Hlen. unfold word_bytes, bytes_word.
  rewrite word.unsigned_of_Z. unfold word.wrap.
  pose proof (le_combine_bound bs) as Hb. rewrite Hlen in Hb.
  change (8 * Z.of_nat 4) with 32 in Hb.
  rewrite Z.mod_small by exact Hb.
  rewrite <- Hlen. apply split_le_combine.
Qed.

(** Scalars read from a buffer, written again, are the bytes read. *)
Lemma words_bytes_words (n : nat) (mem : list byte) :
  (4 * n <= List.length mem)%nat ->
  words_bytes (bytes_words n mem) = firstn (4 * n) mem.
Proof.
  revert mem. induction n as [|n IH]; intros mem Hlen; [reflexivity|].
  cbn [bytes_words]. unfold words_bytes in *. cbn [flat_map].
  rewrite word_bytes_word by (rewrite length_firstn; lia).
  rewrite IH by (rewrite length_skipn; lia).
  replace (4 * S n)%nat with (4 + 4 * n)%nat by lia.
  rewrite <- (firstn_skipn 4 mem) at 3.
  rewrite firstn_app, length_firstn.
  replace (Nat.min 4 (List.length mem)) with 4%nat by lia.
  replace (4 + 4 * n - 4)%nat with (4 * n)%nat by lia.
  rewrite firstn_firstn.
  replace (Nat.min (4 + 4 * n) 4) with 4%nat by lia.
  reflexivity.
Qed.

Section CodecFacts.
Variable S : Type.
Variable decl : struct_decl.
Variable to_words : S -> list word32.
Variable of_words : list word32 -> option S.

Hypothesis of_to_words : forall s, of_words (to_words s) = Some s.
Hypothesis to_words_length :
  forall s, List.length (to_words s) = (struct_sizeof decl / 4)%nat.
Hypothesis sizeof_scalars :
  struct_sizeof decl = (4 * (struct_sizeof decl / 4))%nat.

Lemma encode_with_length (s : S) :
  List.length (encode_with S to_words s) = struct_sizeof decl.
Proof.
  unfold encode_with.
  rewrite words_bytes_length, to_words_length. symmetry.
  exact sizeof_scalars.
Qed.

Lemma decode_encode_with (s : S) (rest : list byte) :
  decode_with S decl of_words (encode_with S to_words s ++ rest) = Some s.
Proof.
  unfold decode_with.
  replace (struct_sizeof decl <=?
           List.length (encode_with S to_words s ++ rest))%nat with true.
  - unfold encode_with. rewrite <- (to_words_length s), bytes_words_bytes.
    apply of_to_words.
  - symmetry. apply Nat.leb_le.
    rewrite length_app, encode_with_length. lia.
Qed.

Hypothesis to_of_words :
  forall ws s, of_words ws = Some s -> to_words s = ws.

Lemma encode_decode_with (mem : list byte) (s : S) :
  decode_with S decl of_words mem = Some s ->
  encode_with S to_words s = firstn (struct_sizeof decl) mem.
Proof.
  unfold decode_with, encode_with.
  destruct (Nat.leb_spec (struct_sizeof decl) (List.length mem))
    as [Hle|Hgt]; [|discriminate].
  intros Hdec. apply to_of_words in Hdec. rewrite Hdec.
  rewrite words_bytes_words by (rewrite <- sizeof_scalars; exact Hle).
  rewrite <- sizeof_scalars. reflexivity.
Qed.
End CodecFacts.

(** *** The five structs *)

(** Take a value apart down to its scalars. *)
Ltac scalars_of s :=
  destruct s;
  repeat match goal with
         | v : vector_float2 |- _ => destruct v
         | v : vector_float4 |- _ => destruct v
         | a : array4 _ |- _ => destruct a
         end.

(** A list that a fixed-length pattern accepted has that length. *)
Ltac fixed_length ws H :=
  repeat (destruct ws as [|? ws]; [discriminate H|]);
  destruct ws; [|discriminate H];
  injection H as <-; reflexivity.

(** One member: evaluate its offset from the declaration, then compare
    scalar ranges. *)
Ltac member_at_offset :=
  unfold member_at; cbn [fst snd];
  match goal with
  | |- context [offsetof ?d ?n] =>
      let o := eval vm_compute in (offsetof d n) in
      change (offsetof d n) with o
  end;
  match goal with
  | |- context [lookup ?n ?ms] =>
      let v := eval cbv in (lookup n ms) in
      change (lookup n ms) with v
  end;
  cbv beta iota;
  match goal with
  | |- slice ?o (sizeof ?t) (encode_with _ ?f ?s) = _ =>
      let i := eval vm_compute in (o / 4)%nat in
      let k := eval vm_compute in (sizeof t / 4)%nat in
      change (slice (4 * i) (4 * k) (words_bytes (f s)) = words_bytes
                (slice i k (f s)));
      apply slice_words_bytes
  end.

Lemma DotInstanceUniform_of_to_words s :
  DotInstanceUniform_of_words (DotInstanceUniform_words s) = Some s.
Proof. scalars_of s. reflexivity. Qed.

Lemma FrameUniforms_of_to_words s :
  FrameUniforms_of_words (FrameUniforms_words s) = Some s.
Proof. scalars_of s. reflexivity. Qed.

Lemma SimulationDotState_of_to_words s :
  SimulationDotState_of_words (SimulationDotState_words s) = Some s.
Proof. scalars_of s. reflexivity. Qed.

Lemma SimulationTouch_of_to_words s :
  SimulationTouch_of_words (SimulationTouch_words s) = Some s.
Proof. scalars_of s. reflexivity. Qed.

Lemma SimulationUniforms_of_to_words s :
  SimulationUniforms_of_words (SimulationUniforms_words s) = Some s.
Proof. scalars_of s. reflexivity. Qed.

Lemma DotInstanceUniform_to_of_words ws s :
  DotInstanceUniform_of_words ws = Some s -> DotInstanceUniform_words s = ws.
Proof.
  intros H. unfold DotInstanceUniform_of_words in H. fixed_length ws H.
Qed.

Lemma FrameUniforms_to_of_words ws s :
  FrameUniforms_of_words ws = Some s -> FrameUniforms_words s = ws.
Proof.
  intros H. unfold FrameUniforms_of_words in H. fixed_length ws H.
Qed.

Lemma SimulationDotState_to_of_words ws s :
  SimulationDotState_of_words ws = Some s -> SimulationDotState_words s = ws.
Proof.
  intros H. unfold SimulationDotState_of_words in H. fixed_length ws H.
Qed.

Lemma SimulationTouch_to_of_words ws s :
  SimulationTouch_of_words ws = Some s -> SimulationTouch_words s = ws.
Proof.
  intros H. unfold SimulationTouch_of_words in H. fixed_length ws H.
Qed.

Lemma SimulationUniforms_to_of_words ws s :
  SimulationUniforms_of_words ws = Some s -> SimulationUniforms_words s = ws.
Proof.
  intros H. unfold SimulationUniforms_of_words in H. fixed_length ws H.
Qed.

Lemma FrameUniforms_words_length s :
  List.length (FrameUniforms_words s) = 32%nat.
Proof. scalars_of s. reflexivity. Qed.

Lemma SimulationUniforms_words_length s :
  List.length (SimulationUniforms_words s) = 12%nat.
Proof. scalars_of s. reflexivity. Qed.

Lemma FrameUniforms_members_at s :
  Forall (member_at FrameUniforms_decl (FrameUniforms_members s)
                    (FrameUniforms_encode s)) FrameUniforms_decl.
Proof.
  unfold FrameUniforms_encode. unfold FrameUniforms_decl at 2.
  scalars_of s.
  repeat (apply Forall_cons; [member_at_offset|]). apply Forall_nil.
Qed.

Lemma DotInstanceUniform_members_at s :
  Forall (member_at DotInstanceUniform_decl (DotInstanceUniform_members s)
                    (DotInstanceUniform_encode s)) DotInstanceUniform_decl.
Proof.
  unfold DotInstanceUniform_encode. unfold DotInstanceUniform_decl at 2.
  scalars_of s.
  repeat (apply Forall_cons; [member_at_offset|]). apply Forall_nil.
Qed.

Lemma SimulationDotState_members_at s :
  Forall (member_at SimulationDotState_decl (SimulationDotState_members s)
                    (SimulationDotState_encode s)) SimulationDotState_decl.
Proof.
  unfold SimulationDotState_encode. unfold SimulationDotState_decl at 2.
  scalars_of s.
  repeat (apply Forall_cons; [member_at_offset|]). apply Forall_nil.
Qed.

Lemma SimulationTouch_members_at s :
  Forall (member_at SimulationTouch_decl (SimulationTouch_members s)
                    (SimulationTouch_encode s)) SimulationTouch_decl.
Proof.
  unfold SimulationTouch_encode. unfold SimulationTouch_decl at 2.
  scalars_of s.
  repeat (apply Forall_cons; [member_at_offset|]). apply Forall_nil.
Qed.

Lemma SimulationUniforms_members_at s :
  Forall (member_at SimulationUniforms_decl (SimulationUniforms_members s)
                    (SimulationUniforms_encode s)) SimulationUniforms_decl.
Proof.
  unfold SimulationUniforms_encode. unfold SimulationUniforms_decl at 2.
  scalars_of s.
  repeat (apply Forall_cons; [member_at_offset|]). apply Forall_nil.
Qed.

Lemma FrameUniforms_decode_encode s rest :
  FrameUniforms_decode (FrameUniforms_encode s ++ rest) = Some s.
Proof.
  apply decode_encode_with.
  - apply FrameUniforms_of_to_words.
  - apply FrameUniforms_words_length.
  - reflexivity.
Qed.

Lemma SimulationUniforms_decode_encode s rest :
  SimulationUniforms_decode (SimulationUniforms_encode s ++ rest) = Some s.
Proof.
  apply decode_encode_with.
  - apply SimulationUniforms_of_to_words.
  - apply SimulationUniforms_words_length.
  - reflexivity.
Qed.

Lemma DotInstanceUniform_decode_encode s rest :
  DotInstanceUniform_decode (DotInstanceUniform_encode s ++ rest) = Some s.
Proof.
  apply decode_encode_with.
  - apply DotInstanceUniform_of_to_words.
  - intros v. scalars_of v. reflexivity.
  - reflexivity.
Qed.

Lemma SimulationDotState_decode_encode s rest :
  SimulationDotState_decode (SimulationDotState_encode s ++ rest) = Some s.
Proof.
  apply decode_encode_with.
  - apply SimulationDotState_of_to_words.
  - intros v. scalars_of v. reflexivity.
  - reflexivity.
Qed.

Lemma SimulationTouch_decode_encode s rest :
  SimulationTouch_decode (SimulationTouch_encode s ++ rest) = Some s.
Proof.
  apply decode_encode_with.
  - apply SimulationTouch_of_to_words.
  - intros v. scalars_of v. reflexivity.
  - reflexivity.
Qed.

(** Read then written: the bytes that were read.  With the lemmas above,
    a struct value and the [sizeof] bytes holding it determine each
    other. *)
Lemma FrameUniforms_encode_decode mem s :
  FrameUniforms_decode mem = Some s ->
  FrameUniforms_encode s = firstn 128 mem.
Proof.
  apply (encode_decode_with FrameUniforms FrameUniforms_decl).
  - reflexivity.
  - apply FrameUniforms_to_of_words.
Qed.

Lemma SimulationUniforms_encode_decode mem s :
  SimulationUniforms_decode mem = Some s ->
  SimulationUniforms_encode s = firstn 48 mem.
Proof.
  apply (encode_decode_with SimulationUniforms SimulationUniforms_decl).
  - reflexivity.
  - apply SimulationUniforms_to_of_words.
Qed.

Lemma DotInstanceUniform_encode_decode mem s :
  DotInstanceUniform_decode mem = Some s ->
  DotInstanceUniform_encode s = firstn 8 mem.
Proof.
  apply (encode_decode_with DotInstanceUniform DotInstanceUniform_decl).
  - reflexivity.
  - apply DotInstanceUniform_to_of_words.
Qed.

Lemma SimulationDotState_encode_decode mem s :
  SimulationDotState_decode mem = Some s ->
  SimulationDotState_encode s = firstn 16 mem.
Proof.
  apply (encode_decode_with SimulationDotState SimulationDotState_decl).
  - reflexivity.
  - apply SimulationDotState_to_of_words.
Qed.

Lemma SimulationTouch_encode_decode mem s :
  SimulationTouch_decode mem = Some s ->
  SimulationTouch_encode s = firstn 16 mem.
Proof.
  apply (encode_decode_with SimulationTouch SimulationTouch_decl).
  - reflexivity.
  - apply SimulationTouch_to_of_words.
Qed.

Create HintDb codec.
#[local] Hint Unfold DotInstanceUniform_encode FrameUniforms_encode
  SimulationDotState_encode SimulationTouch_encode SimulationUniforms_encode
  DotInstanceUniform_decode FrameUniforms_decode
  SimulationDotState_decode SimulationTouch_decode SimulationUniforms_decode
  encode_with : codec.

(** Assemble [layout_agrees] from its parts. *)
Ltac layout_by members_at decode_encode encode_decode :=
  split; [reflexivity|];
  split; [reflexivity|];
  split; [reflexivity|];
  intros s;
  split; [autounfold with codec; rewrite words_bytes_length;
          scalars_of s; reflexivity|];
  split; [reflexivity|];
  split; [apply members_at|];
  split; [intros rest; apply decode_encode|];
  intros mem; apply encode_decode.

Local Open Scope string_scope.

(** C2. Each of the five structs has the agreed, padding-explicit
    layout: its size and member offsets, as a C or Metal compiler derives
    them from the declaration, are the ones listed (8, 128, 16, 16 and 48
    bytes); no byte lies outside a member; a value written to memory
    holds each member at its offset and is read back unchanged through
    the struct definition, member by member; and bytes read through the
    struct definition and written again are the bytes read. *)
Theorem struct_layout_round_trip :
  layout_agrees DotInstanceUniform_decl DotInstanceUniform_members
    DotInstanceUniform_encode DotInstanceUniform_decode
    8 [("center", 0%nat)] /\
  layout_agrees FrameUniforms_decl FrameUniforms_members
    FrameUniforms_encode FrameUniforms_decode
    128 [("canvasSize", 0%nat); ("dotRadius", 8%nat); ("smoothing", 12%nat);
         ("gradientStart", 16%nat); ("gradientEnd", 24%nat);
         ("time", 32%nat); ("driftStrength", 36%nat);
         ("gradientStopCount", 40%nat); ("_padding", 44%nat);
         ("gradientStops", 48%nat); ("gradientColors", 64%nat)] /\
  layout_agrees SimulationDotState_decl SimulationDotState_members
    SimulationDotState_encode SimulationDotState_decode
    16 [("offset", 0%nat); ("velocity", 8%nat)] /\
  layout_agrees SimulationTouch_decl SimulationTouch_members
    SimulationTouch_encode SimulationTouch_decode
    16 [("position", 0%nat)] /\
  layout_agrees SimulationUniforms_decl SimulationUniforms_members
    SimulationUniforms_encode SimulationUniforms_decode
    48 [("timeSpring", 0%nat); ("displacementMass", 16%nat);
        ("touchCount", 32%nat); ("dotCount", 36%nat);
        ("padding0", 40%nat); ("padding1", 44%nat)].
Proof.
  split; [|split; [|split; [|split]]].
  - layout_by DotInstanceUniform_members_at DotInstanceUniform_decode_encode
              DotInstanceUniform_encode_decode.
  - layout_by FrameUniforms_members_at FrameUniforms_decode_encode
              FrameUniforms_encode_decode.
  - layout_by SimulationDotState_members_at SimulationDotState_decode_encode
              SimulationDotState_encode_decode.
  - layout_by SimulationTouch_members_at SimulationTouch_decode_encode
              SimulationTouch_encode_decode.
  - layout_by SimulationUniforms_members_at SimulationUniforms_decode_encode
              SimulationUniforms_encode_decode.
Qed.

Lemma offsets_eqb_eq (l r : list (string * nat)) :
  offsets_eqb l r = true -> l = r.
Proof.
  revert r. induction l as [|[n o] l IH]; intros [|[n' o'] r]; cbn;
    try discriminate; [reflexivity|].
  intros H. apply andb_prop in H as [H Hrest].
  apply andb_prop in H as [Hn Ho].
  apply String.eqb_eq in Hn. apply Nat.eqb_eq in Ho.
  rewrite (IH r Hrest). congruence.
Qed.

(** X8. The layout does not depend on how the target aligns the types: under
    every alignment of [all_abis] the five structs have the offsets and
    sizes computed above.  Host and device need not agree on alignment
    to agree on the layout. *)
Lemma layout_abi_independent (a : abi) (d : struct_decl) :
  In a all_abis -> In d header_decls ->
  struct_offsets_under (abi_alignof a) d = struct_offsets d /\
  struct_sizeof_under (abi_alignof a) d = struct_sizeof d.
Proof.
  intros Ha Hd.
  assert (forallb (fun a => forallb (same_layout a) header_decls) all_abis
          = true) as Hall by (vm_compute; reflexivity).
  rewrite forallb_forall in Hall. specialize (Hall a Ha).
  rewrite forallb_forall in Hall. specialize (Hall d Hd).
  unfold same_layout in Hall. apply andb_prop in Hall as [Ho Hs].
  split; [apply offsets_eqb_eq, Ho | apply Nat.eqb_eq, Hs].
Qed.

Local Close Scope string_scope.

(** ** The colour array and the stop count *)

Lemma array4_capacity_4 {A : Type} (a : array4 A) : array4_capacity a = 4%nat.
Proof. destruct a. reflexivity. Qed.

Lemma array4_get_some {A : Type} (a : array4 A) (i : nat) :
  (i < 4)%nat -> exists c, array4_get a i = Some c.
Proof.
  intros Hi. destruct a as [e0 e1 e2 e3].
  destruct i as [|[|[|[|i]]]]; cbn; eauto. lia.
Qed.

Lemma array4_get_none {A : Type} (a : array4 A) (i : nat) :
  (4 <= i)%nat -> array4_get a i = None.
Proof.
  intros Hi. unfold array4_get. apply nth_error_None.
  fold (array4_capacity a). rewrite array4_capacity_4. exact Hi.
Qed.

Lemma store_at_0 {A : Type} (bs dst mem : list A) :
  store 0 bs dst = Some mem ->
  mem = bs ++ skipn (List.length bs) dst.
Proof.
  unfold store. cbn [Nat.add firstn app].
  destruct (List.length bs <=? List.length dst)%nat; [|discriminate].
  intros H. injection H as <-. reflexivity.
Qed.

(** C3. [gradientColors] holds exactly 4 colours (the declared array has
    4 elements, every value has 4, index 4 is past the end), and a
    [FrameUniforms] with [gradientStopCount = 4] and 4 distinct colours,
    serialised and copied into a buffer, is read back with the same stop
    count and the same 4 colours, index by index. *)
Theorem gradientColors_round_trip
    (s : FrameUniforms) (dst mem : list byte)
    (Hcount : gradientStopCount s = uint_of_Z 4)
    (Hdistinct : NoDup (array4_to_list (gradientColors s)))
    (Hcopy : store 0 (FrameUniforms_encode s) dst = Some mem) :
  member_type FrameUniforms_decl "gradientColors"
    = Some (Tarray Tvector_float4 4) /\
  array4_capacity (gradientColors s) = 4%nat /\
  array4_get (gradientColors s) 4 = None /\
  exists s' : FrameUniforms,
    FrameUniforms_decode mem = Some s' /\
    gradientStopCount s' = uint_of_Z 4 /\
    array4_capacity (gradientColors s') = 4%nat /\
    forall i : nat,
      array4_get (gradientColors s') i = array4_get (gradientColors s) i.
Proof.
  split; [reflexivity|].
  split; [apply array4_capacity_4|].
  split; [apply array4_get_none; lia|].
  exists s. apply store_at_0 in Hcopy. subst mem.
  rewrite FrameUniforms_decode_encode.
  repeat split; auto using array4_capacity_4.
Qed.

Lemma sample_colours_distinct :
  NoDup (array4_to_list (gradientColors (sample_frame 4))).
Proof.
  cbn. repeat constructor; cbn; intros H;
    repeat (destruct H as [H|H]; [discriminate H|]); exact H.
Qed.

Lemma gradientColors_round_trip_witness :
  exists s' : FrameUniforms,
    FrameUniforms_decode
      (FrameUniforms_encode (sample_frame 4) ++ zero_buffer 72) = Some s' /\
    gradientStopCount s' = uint_of_Z 4 /\
    array4_capacity (gradientColors s') = 4%nat /\
    forall i : nat,
      array4_get (gradientColors s') i
      = array4_get (gradientColors (sample_frame 4)) i.
Proof.
  apply (gradientColors_round_trip (sample_frame 4) (zero_buffer 200)).
  - reflexivity.
  - exact sample_colours_distinct.
  - vm_compute. reflexivity.
Defined.

Lemma uint_to_of_Z (z : Z) : uint_to_Z (uint_of_Z z) = z mod 2 ^ 32.
Proof.
  unfold uint_to_Z, uint_of_Z.
  rewrite word.unsigned_of_Z. reflexivity.
Qed.

Lemma uint_to_Z_range (u : uint) : 0 <= uint_to_Z u < 2 ^ 32.
Proof. apply (word.unsigned_range u). Qed.

Lemma uint_to_of_Z_small (z : Z) :
  0 <= z < 2 ^ 32 -> uint_to_Z (uint_of_Z z) = z.
Proof. intros Hz. rewrite uint_to_of_Z. apply Z.mod_small. exact Hz. Qed.

(** C4, as stated, fails: the header puts no bound on [gradientStopCount];
    a [FrameUniforms] whose stop count is 5 is a value of the type, and 5
    exceeds the capacity of its [gradientColors]. *)
Lemma gradientStopCount_bound_counterexample :
  ~ (forall s : FrameUniforms,
        uint_to_Z (gradientStopCount s)
        <= Z.of_nat (array4_capacity (gradientColors s))).
Proof.
  intros Hall. specialize (Hall (sample_frame 5)).
  vm_compute in Hall. apply Hall. reflexivity.
Qed.

(** C4, amended. [gradientStopCount] is an unchecked 32-bit count next to
    a colour array of capacity 4: any [n] in [0, 2^32) can be stored in
    it, is kept as it is (in the value and through memory), and leaves
    the capacity at 4.  When the producer keeps [n <= 4], every index
    below [n] addresses a colour; when it does not, index 4 is below [n]
    and addresses none. *)
Theorem gradientStopCount_unchecked
    (s : FrameUniforms) (n : Z) (Hn : 0 <= n < 2 ^ 32) :
  let s' := set_gradientStopCount (uint_of_Z n) s in
  uint_to_Z (gradientStopCount s') = n /\
  array4_capacity (gradientColors s') = 4%nat /\
  (forall rest, FrameUniforms_decode (FrameUniforms_encode s' ++ rest)
                = Some s') /\
  (n <= 4 ->
   forall i : nat, Z.of_nat i < n ->
     exists c, array4_get (gradientColors s') i = Some c) /\
  (4 < n -> array4_get (gradientColors s') 4 = None).
Proof.
  intros s'. split; [|split; [|split; [|split]]].
  - subst s'. cbn [gradientStopCount set_gradientStopCount].
    apply uint_to_of_Z_small, Hn.
  - apply array4_capacity_4.
  - intros rest. apply FrameUniforms_decode_encode.
  - intros Hle i Hi. apply array4_get_some. lia.
  - intros _. apply array4_get_none. lia.
Qed.

Lemma gradientStopCount_unchecked_witness :
  uint_to_Z (gradientStopCount
               (set_gradientStopCount (uint_of_Z 5) (sample_frame 4))) = 5 /\
  array4_get (gradientColors
                (set_gradientStopCount (uint_of_Z 5) (sample_frame 4))) 4
  = None.
Proof.
  pose proof (gradientStopCount_unchecked (sample_frame 4) 5 ltac:(lia))
    as (Hcount & _ & _ & _ & Hpast).
  split; [exact Hcount | apply Hpast; lia].
Defined.

(** ** Shape of the two uniform blocks *)

Local Open Scope string_scope.

(** C5. [FrameUniforms] is, in this order: a 2-component canvas size, a
    dot radius, a smoothing width, 2-component gradient start and end
    points, a time, a drift strength, a stop count, a padding word, a
    4-component vector of stops and an array of 4 colours, and nothing
    else: every value has exactly these members, made of 32 scalars in
    all, and its 128 bytes are the members' bytes with none left over. *)
Theorem FrameUniforms_shape :
  decl_shape FrameUniforms_decl = spec_FrameUniforms /\
  List.length FrameUniforms_decl = 11%nat /\
  hidden_padding FrameUniforms_decl = 0%nat /\
  forall s : FrameUniforms,
    map fst (FrameUniforms_members s) = map fst spec_FrameUniforms /\
    map (fun m => List.length (snd m)) (FrameUniforms_members s)
    = map (fun m => shape_scalars (snd m)) spec_FrameUniforms /\
    List.length (FrameUniforms_words s) = total_scalars spec_FrameUniforms /\
    List.length (FrameUniforms_encode s)
    = (4 * total_scalars spec_FrameUniforms)%nat /\
    FrameUniforms_of_words (members_words (FrameUniforms_members s)) = Some s.
Proof.
  split; [reflexivity|]. split; [reflexivity|]. split; [reflexivity|].
  intros s. split; [reflexivity|].
  split; [scalars_of s; reflexivity|].
  split; [apply FrameUniforms_words_length|].
  split.
  - autounfold with codec.
    rewrite words_bytes_length, FrameUniforms_words_length. reflexivity.
  - apply FrameUniforms_of_to_words.
Qed.

(** C6. [SimulationUniforms] is a 4-component vector of time step and
    spring/damping coefficients, a 4-component vector of max-displacement,
    inverse mass and pixel-scale, a touch count, a dot count and two
    padding words, and nothing else: every value has exactly these
    members, made of 12 scalars in all, the documented quantities are
    components of the two vectors, and its 48 bytes are the members'
    bytes with none left over. *)
Theorem SimulationUniforms_shape :
  decl_shape SimulationUniforms_decl = spec_SimulationUniforms /\
  List.length SimulationUniforms_decl = 6%nat /\
  hidden_padding SimulationUniforms_decl = 0%nat /\
  forall u : SimulationUniforms,
    map fst (SimulationUniforms_members u) = map fst spec_SimulationUniforms /\
    map (fun m => List.length (snd m)) (SimulationUniforms_members u)
    = map (fun m => shape_scalars (snd m)) spec_SimulationUniforms /\
    lookup "timeSpring" (SimulationUniforms_members u)
    = Some [dt u; stiffness u; damping u; effectRadius u] /\
    lookup "displacementMass" (SimulationUniforms_members u)
    = Some [maxDisplacement u; invMass u; pixelScale u; unused u] /\
    List.length (SimulationUniforms_words u)
    = total_scalars spec_SimulationUniforms /\
    List.length (SimulationUniforms_encode u)
    = (4 * total_scalars spec_SimulationUniforms)%nat /\
    SimulationUniforms_of_words (members_words (SimulationUniforms_members u))
    = Some u.
Proof.
  split; [reflexivity|]. split; [reflexivity|]. split; [reflexivity|].
  intros u. split; [reflexivity|].
  split; [reflexivity|]. split; [reflexivity|]. split; [reflexivity|].
  split; [apply SimulationUniforms_words_length|].
  split.
  - autounfold with codec.
    rewrite words_bytes_length, SimulationUniforms_words_length. reflexivity.
  - apply SimulationUniforms_of_to_words.
Qed.

Local Close Scope string_scope.

(** ** Scenarios *)

(** An initialiser sets the four named members and leaves the rest zero. *)
Lemma SimulationUniforms_init_fields (ts dm : vector_float4) (tc dc : Z) :
  let u := SimulationUniforms_init ts dm tc dc in
  timeSpring u = ts /\
  displacementMass u = dm /\
  uint_to_Z (touchCount u) = tc mod 2 ^ 32 /\
  uint_to_Z (dotCount u) = dc mod 2 ^ 32 /\
  uint_to_Z (padding0 u) = 0 /\
  uint_to_Z (padding1 u) = 0.
Proof.
  cbn. repeat split; try apply uint_to_of_Z.
Qed.

(** The scenario's constants are binary32 numbers, with these encodings. *)
Lemma scenario_constants :
  forallb (valid_binary F32.prec F32.emax)
    [F32.of_decimal 16 3; F32.of_decimal 180 0; F32.of_decimal 12 0;
     F32.of_decimal 40 0; F32.of_decimal 24 0; F32.of_decimal 2 0;
     F32.of_decimal 1 0; F32.of_decimal 0 0] = true /\
  map uint_to_Z (float4_words scenario_timeSpring)
  = [0x3C83126F; 0x43340000; 0x41400000; 0x42200000] /\
  map uint_to_Z (float4_words scenario_displacementMass)
  = [0x41C00000; 0x40000000; 0x3F800000; 0].
Proof. repeat split; vm_compute; reflexivity. Qed.

(** C7. A [SimulationUniforms] built with timeSpring = (0.016, 180.0,
    12.0, 40.0), displacementMass = (24.0, 2.0, 1.0, 0.0), touchCount = 1
    and dotCount = 100 reads back, member by member, what was written,
    and both padding members are 0; the same holds after the value went
    through memory, whose 48 bytes hold the binary32 encodings of the
    eight constants followed by 1, 100, 0, 0. *)
Theorem scenario_reads_back :
  timeSpring scenario_uniforms = scenario_timeSpring /\
  displacementMass scenario_uniforms = scenario_displacementMass /\
  uint_to_Z (touchCount scenario_uniforms) = 1 /\
  uint_to_Z (dotCount scenario_uniforms) = 100 /\
  uint_to_Z (padding0 scenario_uniforms) = 0 /\
  uint_to_Z (padding1 scenario_uniforms) = 0 /\
  map uint_to_Z (SimulationUniforms_words scenario_uniforms)
  = [0x3C83126F; 0x43340000; 0x41400000; 0x42200000;
     0x41C00000; 0x40000000; 0x3F800000; 0;
     1; 100; 0; 0] /\
  List.length (SimulationUniforms_encode scenario_uniforms) = 48%nat /\
  forall rest : list byte,
    SimulationUniforms_decode
      (SimulationUniforms_encode scenario_uniforms ++ rest)
    = Some scenario_uniforms.
Proof.
  do 8 (split; [vm_compute; reflexivity|]).
  intros rest. apply SimulationUniforms_decode_encode.
Qed.

(** C8. Storing the literal 0 in [gradientStopCount] and reading the
    member back gives 0, directly and through memory, where the four
    bytes at the member's offset 40 are zero; the store changes no other
    member. *)
Theorem gradientStopCount_zero (s : FrameUniforms) :
  let s' := set_gradientStopCount (uint_of_Z 0) s in
  uint_to_Z (gradientStopCount s') = 0 /\
  slice 40 4 (FrameUniforms_encode s')
  = [Byte.x00; Byte.x00; Byte.x00; Byte.x00] /\
  (forall rest,
      exists r, FrameUniforms_decode (FrameUniforms_encode s' ++ rest)
                = Some r /\
                uint_to_Z (gradientStopCount r) = 0) /\
  set_gradientStopCount (gradientStopCount s) s' = s.
Proof.
  intros s'. split; [reflexivity|]. split; [|split].
  - pose proof (FrameUniforms_members_at s') as Hall.
    rewrite Forall_forall in Hall.
    specialize (Hall ("gradientStopCount"%string, Tuint)).
    apply Hall. cbn. auto 10.
  - intros rest. exists s'. split; [apply FrameUniforms_decode_encode|].
    reflexivity.
  - destruct s. reflexivity.
Qed.

(** ** Stores and the bytes they leave alone *)

Section StoreFrame.
Context {A : Type}.
Implicit Types mem bs : list A.

Lemma slice_app_l (o n : nat) mem rest :
  (o + n <= List.length mem)%nat ->
  slice o n (mem ++ rest) = slice o n mem.
Proof.
  intros Hlen. unfold slice.
  rewrite skipn_app, firstn_app, length_skipn.
  replace (o - List.length mem)%nat with 0%nat by lia.
  replace (n - (List.length mem - o))%nat with 0%nat by lia.
  cbn [skipn]. rewrite firstn_O, app_nil_r. reflexivity.
Qed.

Lemma slice_app_r (o n : nat) mem rest :
  (List.length mem <= o)%nat ->
  slice o n (mem ++ rest) = slice (o - List.length mem) n rest.
Proof.
  intros Hlen. unfold slice.
  rewrite skipn_app, skipn_all2 by exact Hlen. reflexivity.
Qed.

Lemma slice_firstn (o n k : nat) mem :
  (o + n <= k)%nat -> slice o n (firstn k mem) = slice o n mem.
Proof.
  intros Hk.
  destruct (Nat.le_gt_cases k (List.length mem)) as [Hle|Hgt].
  - rewrite <- (firstn_skipn k mem) at 2.
    rewrite slice_app_l; [reflexivity|].
    rewrite length_firstn. lia.
  - rewrite firstn_all2 by lia. reflexivity.
Qed.

Lemma slice_slice (o len i n : nat) mem :
  (i + n <= len)%nat -> slice i n (slice o len mem) = slice (o + i) n mem.
Proof.
  intros Hin. unfold slice at 2.
  rewrite slice_firstn by exact Hin.
  unfold slice. rewrite skipn_skipn.
  replace (i + o)%nat with (o + i)%nat by lia. reflexivity.
Qed.

Lemma store_length (off : nat) bs mem mem' :
  store off bs mem = Some mem' -> List.length mem' = List.length mem.
Proof.
  unfold store.
  destruct (Nat.leb_spec (off + List.length bs) (List.length mem))
    as [Hle|Hgt]; [|discriminate].
  intros H. injection H as <-.
  rewrite !length_app, length_firstn, length_skipn. lia.
Qed.

(** A range that ends before the store begins is untouched. *)
Lemma store_slice_before (off o n : nat) bs mem mem' :
  store off bs mem = Some mem' ->
  (o + n <= off)%nat ->
  slice o n mem' = slice o n mem.
Proof.
  unfold store.
  destruct (Nat.leb_spec (off + List.length bs) (List.length mem))
    as [Hle|Hgt]; [|discriminate].
  intros H Hbefore. injection H as <-.
  rewrite <- (firstn_skipn off mem) at 3.
  rewrite !slice_app_l by (rewrite length_firstn; lia).
  reflexivity.
Qed.

(** A range that begins after the store ends is untouched. *)
Lemma store_slice_after (off o n : nat) bs mem mem' :
  store off bs mem = Some mem' ->
  (off + List.length bs <= o)%nat ->
  slice o n mem' = slice o n mem.
Proof.
  unfold store.
  destruct (Nat.leb_spec (off + List.length bs) (List.length mem))
    as [Hle|Hgt]; [|discriminate].
  intros H Hafter. injection H as <-.
  rewrite <- (firstn_skipn (off + List.length bs) mem) at 3.
  rewrite app_assoc.
  rewrite !slice_app_r
    by (rewrite ?length_app, !length_firstn; lia).
  rewrite length_app, !length_firstn.
  replace (Nat.min off (List.length mem) + List.length bs)%nat
    with (Nat.min (off + List.length bs) (List.length mem)) by lia.
  reflexivity.
Qed.

Lemma store_slice_disjoint (off o n : nat) bs mem mem' :
  store off bs mem = Some mem' ->
  (o + n <= off \/ off + List.length bs <= o)%nat ->
  slice o n mem' = slice o n mem.
Proof.
  intros H [Hb|Ha];
    eauto using store_slice_before, store_slice_after.
Qed.
End StoreFrame.

(** ** Reserved members *)

Lemma bytes_words_length (n : nat) (mem : list byte) :
  List.length (bytes_words n mem) = n.
Proof.
  revert mem. induction n as [|n IH]; intros mem; cbn [bytes_words List.length];
    [reflexivity | rewrite IH; reflexivity].
Qed.

Lemma word_bytes_inj (a b : word32) : word_bytes a = word_bytes b -> a = b.
Proof.
  intros H. rewrite <- (bytes_word_bytes a), <- (bytes_word_bytes b), H.
  reflexivity.
Qed.

Lemma words_bytes_one (w : word32) : words_bytes [w] = word_bytes w.
Proof. unfold words_bytes. cbn [flat_map]. apply app_nil_r. Qed.

(** Any buffer of at least [sizeof] bytes reads as a struct. *)
Lemma FrameUniforms_decode_total (mem : list byte) :
  (128 <= List.length mem)%nat -> exists s, FrameUniforms_decode mem = Some s.
Proof.
  intros Hlen. unfold FrameUniforms_decode, decode_with.
  change (struct_sizeof FrameUniforms_decl) with 128%nat.
  replace (128 <=? List.length mem)%nat with true
    by (symmetry; apply Nat.leb_le; exact Hlen).
  change (128 / 4)%nat with 32%nat.
  pose proof (bytes_words_length 32 mem) as Hws.
  destruct (bytes_words 32 mem) as [|? ws]; [discriminate Hws|].
  do 31 (destruct ws as [|? ws]; [discriminate Hws|]).
  destruct ws; [|discriminate Hws].
  eexists. reflexivity.
Qed.

Lemma SimulationUniforms_decode_total (mem : list byte) :
  (48 <= List.length mem)%nat ->
  exists u, SimulationUniforms_decode mem = Some u.
Proof.
  intros Hlen. unfold SimulationUniforms_decode, decode_with.
  change (struct_sizeof SimulationUniforms_decl) with 48%nat.
  replace (48 <=? List.length mem)%nat with true
    by (symmetry; apply Nat.leb_le; exact Hlen).
  change (48 / 4)%nat with 12%nat.
  pose proof (bytes_words_length 12 mem) as Hws.
  destruct (bytes_words 12 mem) as [|? ws]; [discriminate Hws|].
  do 11 (destruct ws as [|? ws]; [discriminate Hws|]).
  destruct ws; [|discriminate Hws].
  eexists. reflexivity.
Qed.

(** Where the two reserved scalars live in a buffer that reads as [s]. *)
Lemma driftStrength_bytes (mem : list byte) (s : FrameUniforms) :
  FrameUniforms_decode mem = Some s ->
  slice 36 4 mem = word_bytes (driftStrength s).
Proof.
  intros Hdec. apply FrameUniforms_encode_decode in Hdec.
  rewrite <- (slice_firstn 36 4 128) by lia.
  rewrite <- Hdec, <- words_bytes_one.
  scalars_of s. apply (slice_words_bytes 9 1).
Qed.

Lemma unused_bytes (mem : list byte) (u : SimulationUniforms) :
  SimulationUniforms_decode mem = Some u ->
  slice 28 4 mem = word_bytes (unused u).
Proof.
  intros Hdec. apply SimulationUniforms_encode_decode in Hdec.
  rewrite <- (slice_firstn 28 4 48) by lia.
  rewrite <- Hdec, <- words_bytes_one.
  scalars_of u. apply (slice_words_bytes 7 1).
Qed.

(** A store that stays clear of the reserved scalar yields a buffer that
    reads as a struct with the same reserved scalar. *)
Lemma driftStrength_framed (s : FrameUniforms) (off : nat)
    (bs mem' : list byte) :
  store off bs (FrameUniforms_encode s) = Some mem' ->
  (off + List.length bs <= 36 \/ 40 <= off)%nat ->
  exists s', FrameUniforms_decode mem' = Some s' /\
             driftStrength s' = driftStrength s.
Proof.
  intros Hst Hclear.
  pose proof (store_length _ _ _ _ Hst) as Hlen.
  destruct (FrameUniforms_decode_total mem') as [s' Hs'].
  { rewrite Hlen. autounfold with codec.
    rewrite words_bytes_length, FrameUniforms_words_length. lia. }
  exists s'. split; [exact Hs'|].
  apply word_bytes_inj.
  rewrite <- (driftStrength_bytes _ _ Hs').
  rewrite (store_slice_disjoint off 36 4 _ _ _ Hst) by lia.
  apply driftStrength_bytes.
  rewrite <- (app_nil_r (FrameUniforms_encode s)).
  apply FrameUniforms_decode_encode.
Qed.

Lemma unused_framed (u : SimulationUniforms) (off : nat)
    (bs mem' : list byte) :
  store off bs (SimulationUniforms_encode u) = Some mem' ->
  (off + List.length bs <= 28 \/ 32 <= off)%nat ->
  exists u', SimulationUniforms_decode mem' = Some u' /\
             unused u' = unused u.
Proof.
  intros Hst Hclear.
  pose proof (store_length _ _ _ _ Hst) as Hlen.
  destruct (SimulationUniforms_decode_total mem') as [u' Hu'].
  { rewrite Hlen. autounfold with codec.
    rewrite words_bytes_length, SimulationUniforms_words_length. lia. }
  exists u'. split; [exact Hu'|].
  apply word_bytes_inj.
  rewrite <- (unused_bytes _ _ Hu').
  rewrite (store_slice_disjoint off 28 4 _ _ _ Hst) by lia.
  apply unused_bytes.
  rewrite <- (app_nil_r (SimulationUniforms_encode u)).
  apply SimulationUniforms_decode_encode.
Qed.

(** Split a store to a member by the member's name: every name of the
    declaration gives a store at a known offset and size. *)
Ltac by_member H name k :=
  repeat match type of H with
         | context [String.eqb ?c name] =>
             destruct (String.eqb_spec c name) as [<-|?];
             [cbn in H;
              match type of H with
              | (if ?b then _ else _) = _ =>
                  let E := fresh "E" in
                  destruct b eqn:E in H; [|discriminate H]
              end;
              k
             |]
         end;
  try discriminate H.

Local Open Scope string_scope.

(** C9. [driftStrength] and the [w] component of [displacementMass] are
    inert.  On values: a store to any other member of the struct, or to
    another component of [displacementMass], leaves them as they were.
    On memory: overwriting the bytes of any other member (or of component
    x, y or z of [displacementMass]) in a written struct, with any bytes,
    gives a buffer that still reads as a struct whose reserved scalar is
    the one written.  The header defines no function, so nothing in it
    reads the two scalars or gives them a meaning. *)
Theorem reserved_fields_inert :
  (forall (s : FrameUniforms) (v2 : vector_float2) (f : float) (n : uint)
          (v4 : vector_float4) (a : array4 vector_float4),
      driftStrength (set_canvasSize v2 s) = driftStrength s /\
      driftStrength (set_dotRadius f s) = driftStrength s /\
      driftStrength (set_smoothing f s) = driftStrength s /\
      driftStrength (set_gradientStart v2 s) = driftStrength s /\
      driftStrength (set_gradientEnd v2 s) = driftStrength s /\
      driftStrength (set_time f s) = driftStrength s /\
      driftStrength (set_gradientStopCount n s) = driftStrength s /\
      driftStrength (set__padding n s) = driftStrength s /\
      driftStrength (set_gradientStops v4 s) = driftStrength s /\
      driftStrength (set_gradientColors a s) = driftStrength s) /\
  (forall (u : SimulationUniforms) (f : float) (n : uint)
          (v4 : vector_float4),
      unused (set_timeSpring v4 u) = unused u /\
      unused (set_touchCount n u) = unused u /\
      unused (set_dotCount n u) = unused u /\
      unused (set_padding0 n u) = unused u /\
      unused (set_padding1 n u) = unused u /\
      unused (set_displacementMass (set_v4_x f (displacementMass u)) u)
      = unused u /\
      unused (set_displacementMass (set_v4_y f (displacementMass u)) u)
      = unused u /\
      unused (set_displacementMass (set_v4_z f (displacementMass u)) u)
      = unused u) /\
  (forall (s : FrameUniforms) (name : string) (bs mem' : list byte),
      name <> "driftStrength" ->
      store_member FrameUniforms_decl name bs (FrameUniforms_encode s)
      = Some mem' ->
      exists s', FrameUniforms_decode mem' = Some s' /\
                 driftStrength s' = driftStrength s) /\
  (forall (u : SimulationUniforms) (name : string) (bs mem' : list byte),
      name <> "displacementMass" ->
      store_member SimulationUniforms_decl name bs (SimulationUniforms_encode u)
      = Some mem' ->
      exists u', SimulationUniforms_decode mem' = Some u' /\
                 unused u' = unused u) /\
  (forall (u : SimulationUniforms) (i : nat) (bs mem' : list byte),
      i <> 3%nat ->
      store_scalar SimulationUniforms_decl "displacementMass" i bs
                   (SimulationUniforms_encode u) = Some mem' ->
      exists u', SimulationUniforms_decode mem' = Some u' /\
                 unused u' = unused u).
Proof.
  split; [intros; repeat split|].
  split; [intros; repeat split|].
  split; [|split].
  - intros s name bs mem' Hname H.
    unfold store_member, offsetof, member_type in H.
    let offs := eval vm_compute in (struct_offsets FrameUniforms_decl) in
    change (struct_offsets FrameUniforms_decl) with offs in H.
    remember (FrameUniforms_encode s) as mem eqn:Hmem.
    unfold FrameUniforms_decl in H. cbn [lookup] in H.
    by_member H name
      ltac:(try congruence;
            subst mem;
            match goal with
            | E : (_ =? _)%nat = true |- _ => apply Nat.eqb_eq in E
            end;
            apply (driftStrength_framed _ _ _ _ H); lia).
  - intros u name bs mem' Hname H.
    unfold store_member, offsetof, member_type in H.
    let offs := eval vm_compute in (struct_offsets SimulationUniforms_decl) in
    change (struct_offsets SimulationUniforms_decl) with offs in H.
    remember (SimulationUniforms_encode u) as mem eqn:Hmem.
    unfold SimulationUniforms_decl in H. cbn [lookup] in H.
    by_member H name
      ltac:(try congruence;
            subst mem;
            match goal with
            | E : (_ =? _)%nat = true |- _ => apply Nat.eqb_eq in E
            end;
            apply (unused_framed _ _ _ _ H); lia).
  - intros u i bs mem' Hi H.
    unfold store_scalar in H.
    change (offsetof SimulationUniforms_decl "displacementMass")
      with (Some 16%nat) in H.
    change (member_type SimulationUniforms_decl "displacementMass")
      with (Some Tvector_float4) in H.
    cbv beta iota in H.
    change (scalars Tvector_float4) with 4%nat in H. revert H.
    destruct (Nat.ltb_spec i 4) as [Hlt|]; [|cbn [andb]; discriminate].
    destruct (Nat.eqb_spec (List.length bs) 4) as [Hlen|];
      [|cbn [andb]; discriminate].
    cbn [andb]. intros H.
    apply (unused_framed _ _ _ _ H). lia.
Qed.

Local Close Scope string_scope.

Lemma reserved_fields_inert_witness :
  (exists s',
      FrameUniforms_decode
        (FrameUniforms_encode
           (set_gradientStopCount (uint_of_Z 2) (sample_frame 4))) = Some s' /\
      driftStrength s' = driftStrength (sample_frame 4)) /\
  (exists u',
      SimulationUniforms_decode
        (SimulationUniforms_encode
           (set_touchCount (uint_of_Z 3) sample_uniforms)) = Some u' /\
      unused u' = unused sample_uniforms) /\
  (exists u',
      SimulationUniforms_decode
        (SimulationUniforms_encode
           (set_displacementMass
              (set_v4_x (F32.decimal 32 0) (displacementMass sample_uniforms))
              sample_uniforms)) = Some u' /\
      unused u' = unused sample_uniforms).
Proof.
  destruct reserved_fields_inert as (_ & _ & Hframe & Hsim & Hcomp).
  split; [|split].
  - apply (Hframe (sample_frame 4) "gradientStopCount"%string
                  (word_bytes (uint_of_Z 2))).
    + discriminate.
    + vm_compute. reflexivity.
  - apply (Hsim sample_uniforms "touchCount"%string
                (word_bytes (uint_of_Z 3))).
    + discriminate.
    + vm_compute. reflexivity.
  - apply (Hcomp sample_uniforms 0%nat (word_bytes (F32.decimal 32 0))).
    + discriminate.
    + vm_compute. reflexivity.
Defined.

(** ** Counts and padding are 32-bit unsigned *)

Local Open Scope string_scope.

(** C10. The six count and padding members are declared [uint], four
    bytes each.  Whatever value a struct holds, each of them reads as an
    integer in [0, 2^32); storing any integer [z] in one of them and
    reading it back gives [z mod 2^32], so a negative count cannot be
    held: -1 reads back as 4294967295 and 2^32 as 0. *)
Theorem counts_are_uint32 :
  (map (member_type FrameUniforms_decl) ["gradientStopCount"; "_padding"]
   = [Some Tuint; Some Tuint] /\
   map (member_type SimulationUniforms_decl)
       ["touchCount"; "dotCount"; "padding0"; "padding1"]
   = [Some Tuint; Some Tuint; Some Tuint; Some Tuint] /\
   sizeof Tuint = 4%nat) /\
  (forall s : FrameUniforms,
      0 <= uint_to_Z (gradientStopCount s) < 2 ^ 32 /\
      0 <= uint_to_Z (_padding s) < 2 ^ 32) /\
  (forall u : SimulationUniforms,
      0 <= uint_to_Z (touchCount u) < 2 ^ 32 /\
      0 <= uint_to_Z (dotCount u) < 2 ^ 32 /\
      0 <= uint_to_Z (padding0 u) < 2 ^ 32 /\
      0 <= uint_to_Z (padding1 u) < 2 ^ 32) /\
  (forall (z : Z) (s : FrameUniforms),
      uint_to_Z (gradientStopCount (set_gradientStopCount (uint_of_Z z) s))
      = z mod 2 ^ 32 /\
      uint_to_Z (_padding (set__padding (uint_of_Z z) s)) = z mod 2 ^ 32) /\
  (forall (z : Z) (u : SimulationUniforms),
      uint_to_Z (touchCount (set_touchCount (uint_of_Z z) u)) = z mod 2 ^ 32 /\
      uint_to_Z (dotCount (set_dotCount (uint_of_Z z) u)) = z mod 2 ^ 32 /\
      uint_to_Z (padding0 (set_padding0 (uint_of_Z z) u)) = z mod 2 ^ 32 /\
      uint_to_Z (padding1 (set_padding1 (uint_of_Z z) u)) = z mod 2 ^ 32) /\
  (uint_to_Z (uint_of_Z (-1)) = 4294967295 /\
   uint_to_Z (uint_of_Z (2 ^ 32)) = 0 /\
   forall z : Z, uint_of_Z (z + 2 ^ 32) = uint_of_Z z).
Proof.
  split; [repeat split|].
  split; [intros s; split; apply uint_to_Z_range|].
  split; [intros u; repeat split; apply uint_to_Z_range|].
  split; [intros z s; split; apply uint_to_of_Z|].
  split; [intros z u; repeat split; apply uint_to_of_Z|].
  split; [reflexivity|]. split; [reflexivity|].
  intros z. apply word.unsigned_inj. fold (uint_to_Z (uint_of_Z (z + 2 ^ 32))).
  fold (uint_to_Z (uint_of_Z z)). rewrite !uint_to_of_Z.
  rewrite <- (Z.mul_1_l (2 ^ 32)) at 1. apply Z.mod_add. lia.
Qed.

Local Close Scope string_scope.

(** * Further properties of the declarations *)

(** ** Member stores on the bytes of a written struct *)

(** A store of scalars at a scalar offset inside the written struct. *)
Ltac store_in_words f :=
  match goal with
  | |- store ?o (words_bytes ?vs) (words_bytes (f ?s)) = _ =>
      let i := eval vm_compute in (o / 4)%nat in
      change o with (4 * i)%nat;
      rewrite store_words_bytes; reflexivity
  end.

(** A store to a named member of a written struct. *)
Ltac member_store d f :=
  unfold store_member;
  match goal with
  | |- context [offsetof d ?n] =>
      let o := eval vm_compute in (offsetof d n) in
      change (offsetof d n) with o;
      let t := eval vm_compute in (member_type d n) in
      change (member_type d n) with t
  end;
  cbv beta iota;
  rewrite <- ?words_bytes_one;
  rewrite words_bytes_length;
  match goal with
  | |- (if ?b then _ else _) = _ =>
      let v := eval vm_compute in b in change b with v
  end;
  cbv beta iota;
  autounfold with codec;
  store_in_words f.

Local Open Scope string_scope.

(** X1. Overwriting the bytes of one member of a written [FrameUniforms],
    at the member's offset, gives exactly the bytes of the struct after
    the assignment to that member: the eleven members can be updated in
    place, one at a time, in a mapped buffer. *)
Theorem FrameUniforms_member_stores
    (s : FrameUniforms) (f : float) (n : uint)
    (v2 : vector_float2) (v4 : vector_float4) (a : array4 vector_float4) :
  let mem := FrameUniforms_encode s in
  let put := store_member FrameUniforms_decl in
  put "canvasSize" (words_bytes (float2_words v2)) mem
  = Some (FrameUniforms_encode (set_canvasSize v2 s)) /\
  put "dotRadius" (word_bytes f) mem
  = Some (FrameUniforms_encode (set_dotRadius f s)) /\
  put "smoothing" (word_bytes f) mem
  = Some (FrameUniforms_encode (set_smoothing f s)) /\
  put "gradientStart" (words_bytes (float2_words v2)) mem
  = Some (FrameUniforms_encode (set_gradientStart v2 s)) /\
  put "gradientEnd" (words_bytes (float2_words v2)) mem
  = Some (FrameUniforms_encode (set_gradientEnd v2 s)) /\
  put "time" (word_bytes f) mem
  = Some (FrameUniforms_encode (set_time f s)) /\
  put "driftStrength" (word_bytes f) mem
  = Some (FrameUniforms_encode (set_driftStrength f s)) /\
  put "gradientStopCount" (word_bytes n) mem
  = Some (FrameUniforms_encode (set_gradientStopCount n s)) /\
  put "_padding" (word_bytes n) mem
  = Some (FrameUniforms_encode (set__padding n s)) /\
  put "gradientStops" (words_bytes (float4_words v4)) mem
  = Some (FrameUniforms_encode (set_gradientStops v4 s)) /\
  put "gradientColors" (words_bytes (float4x4_words a)) mem
  = Some (FrameUniforms_encode (set_gradientColors a s)).
Proof.
  intros mem put. subst mem put. scalars_of s.
  repeat split; member_store FrameUniforms_decl FrameUniforms_words.
Qed.

(** A store to one scalar of a named member of a written struct. *)
Ltac scalar_store d f :=
  unfold store_scalar;
  match goal with
  | |- context [offsetof d ?n] =>
      let o := eval vm_compute in (offsetof d n) in
      change (offsetof d n) with o;
      let t := eval vm_compute in (member_type d n) in
      change (member_type d n) with t
  end;
  cbv beta iota;
  rewrite word_bytes_length;
  match goal with
  | |- (if ?b then _ else _) = _ =>
      let v := eval vm_compute in b in change b with v
  end;
  cbv beta iota;
  rewrite <- words_bytes_one;
  autounfold with codec;
  match goal with
  | |- store ?o _ _ = _ =>
      let o' := eval vm_compute in o in change o with o'
  end;
  store_in_words f.

(** X2. Overwriting the bytes of one member of a written
    [SimulationUniforms], or the four bytes of one component of its two
    parameter vectors (dt, stiffness, damping, effectRadius;
    maxDisplacement, invMass, pixelScale, unused), gives exactly the bytes
    of the struct after the corresponding assignment. *)
Theorem SimulationUniforms_member_stores
    (u : SimulationUniforms) (f : float) (n : uint) (v4 : vector_float4) :
  let mem := SimulationUniforms_encode u in
  let put := store_member SimulationUniforms_decl in
  let put_comp := store_scalar SimulationUniforms_decl in
  (put "timeSpring" (words_bytes (float4_words v4)) mem
   = Some (SimulationUniforms_encode (set_timeSpring v4 u)) /\
   put "displacementMass" (words_bytes (float4_words v4)) mem
   = Some (SimulationUniforms_encode (set_displacementMass v4 u)) /\
   put "touchCount" (word_bytes n) mem
   = Some (SimulationUniforms_encode (set_touchCount n u)) /\
   put "dotCount" (word_bytes n) mem
   = Some (SimulationUniforms_encode (set_dotCount n u)) /\
   put "padding0" (word_bytes n) mem
   = Some (SimulationUniforms_encode (set_padding0 n u)) /\
   put "padding1" (word_bytes n) mem
   = Some (SimulationUniforms_encode (set_padding1 n u))) /\
  (put_comp "timeSpring" 0%nat (word_bytes f) mem
   = Some (SimulationUniforms_encode
             (set_timeSpring (set_v4_x f (timeSpring u)) u)) /\
   put_comp "timeSpring" 1%nat (word_bytes f) mem
   = Some (SimulationUniforms_encode
             (set_timeSpring (set_v4_y f (timeSpring u)) u)) /\
   put_comp "timeSpring" 2%nat (word_bytes f) mem
   = Some (SimulationUniforms_encode
             (set_timeSpring (set_v4_z f (timeSpring u)) u)) /\
   put_comp "timeSpring" 3%nat (word_bytes f) mem
   = Some (SimulationUniforms_encode
             (set_timeSpring (set_v4_w f (timeSpring u)) u)) /\
   put_comp "displacementMass" 0%nat (word_bytes f) mem
   = Some (SimulationUniforms_encode
             (set_displacementMass (set_v4_x f (displacementMass u)) u)) /\
   put_comp "displacementMass" 1%nat (word_bytes f) mem
   = Some (SimulationUniforms_encode
             (set_displacementMass (set_v4_y f (displacementMass u)) u)) /\
   put_comp "displacementMass" 2%nat (word_bytes f) mem
   = Some (SimulationUniforms_encode
             (set_displacementMass (set_v4_z f (displacementMass u)) u)) /\
   put_comp "displacementMass" 3%nat (word_bytes f) mem
   = Some (SimulationUniforms_encode
             (set_displacementMass (set_v4_w f (displacementMass u)) u))).
Proof.
  intros mem put put_comp. subst mem put put_comp.
  split.
  - scalars_of u. repeat split;
      member_store SimulationUniforms_decl SimulationUniforms_words.
  - scalars_of u. repeat split;
      scalar_store SimulationUniforms_decl SimulationUniforms_words.
Qed.

Local Close Scope string_scope.

(** ** The elements of [gradientColors] *)

Lemma FrameUniforms_encode_length (s : FrameUniforms) :
  List.length (FrameUniforms_encode s) = 128%nat.
Proof.
  autounfold with codec.
  rewrite words_bytes_length, FrameUniforms_words_length. reflexivity.
Qed.

Lemma float4_bytes_length (v : vector_float4) :
  List.length (words_bytes (float4_words v)) = 16%nat.
Proof. rewrite words_bytes_length. reflexivity. Qed.

(** X3. Colour [i] of a written [FrameUniforms] occupies the 16 bytes at
    offset [64 + 16 * i].  For [i < 4] those bytes are the colour, and
    overwriting them is the assignment [gradientColors[i] = v]; for
    [i >= 4] the range lies past the end of the struct, and neither the
    element nor the store exists. *)
Theorem gradientColors_element (s : FrameUniforms) (i : nat)
    (v : vector_float4) :
  offsetof FrameUniforms_decl "gradientColors" = Some 64%nat /\
  slice (64 + 16 * i) 16 (FrameUniforms_encode s)
  = match array4_get (gradientColors s) i with
    | Some c => words_bytes (float4_words c)
    | None => []
    end /\
  store (64 + 16 * i) (words_bytes (float4_words v)) (FrameUniforms_encode s)
  = option_map FrameUniforms_encode (set_gradientColor i v s).
Proof.
  split; [reflexivity|].
  destruct (Nat.lt_ge_cases i 4) as [Hlt|Hge].
  - assert (i = 0 \/ i = 1 \/ i = 2 \/ i = 3)%nat
      as [-> | [-> | [-> | ->]]] by lia;
      scalars_of s; split;
      autounfold with codec;
      try (match goal with
           | |- slice ?o 16 _ = _ =>
               let k := eval vm_compute in (o / 4)%nat in
               change (slice o 16)
                 with (@slice Init.Byte.byte (4 * k) (4 * 4))
           end;
           rewrite slice_words_bytes; reflexivity);
      match goal with
      | |- store ?o _ _ = _ =>
          let o' := eval vm_compute in o in change o with o'
      end;
      store_in_words FrameUniforms_words.
  - split.
    + rewrite array4_get_none by exact Hge.
      unfold slice. rewrite skipn_all2; [apply firstn_nil|].
      rewrite FrameUniforms_encode_length. lia.
    + unfold set_gradientColor, array4_set.
      destruct (gradientColors s) as [e0 e1 e2 e3].
      do 4 (destruct i as [|i]; [lia|]). cbn [option_map].
      unfold store.
      rewrite FrameUniforms_encode_length, float4_bytes_length.
      replace (64 + 16 * Datatypes.S (Datatypes.S (Datatypes.S (Datatypes.S i)))
               + 16 <=? 128)%nat with false; [reflexivity|].
      symmetry. apply Nat.leb_gt. lia.
Qed.

(** ** Reading the documented quantities from a buffer *)

Lemma scalar_of_slice (mem : list byte) (k : nat) (w : word32) :
  slice k 4 mem = word_bytes w -> w = bytes_word (slice k 4 mem).
Proof. intros ->. symmetry. apply bytes_word_bytes. Qed.

Lemma SimulationUniforms_scalar_at (mem : list byte) (u : SimulationUniforms)
    (k : nat) :
  SimulationUniforms_decode mem = Some u ->
  (k < 12)%nat ->
  nth_error (SimulationUniforms_words u) k
  = Some (bytes_word (slice (4 * k) 4 mem)).
Proof.
  intros Hdec Hk. apply SimulationUniforms_encode_decode in Hdec.
  rewrite <- (slice_firstn (4 * k) 4 48) by lia.
  rewrite <- Hdec. autounfold with codec.
  rewrite (slice_words_bytes k 1).
  assert (List.length (skipn k (SimulationUniforms_words u)) = 12 - k)%nat
    as Hlen by (rewrite length_skipn, SimulationUniforms_words_length;
                reflexivity).
  unfold slice.
  destruct (skipn k (SimulationUniforms_words u)) as [|w rest] eqn:Hskip.
  - cbn [List.length] in Hlen. lia.
  - rewrite <- (Nat.add_0_r k) at 1.
    rewrite <- nth_error_skipn, Hskip. cbn [nth_error firstn].
    rewrite words_bytes_one, bytes_word_bytes. reflexivity.
Qed.

(** X4. In any buffer that reads as a [SimulationUniforms], the
    quantities the header's comments name are the little-endian scalars at
    fixed byte offsets: dt 0, stiffness 4, damping 8, effectRadius 12,
    maxDisplacement 16, invMass 20, pixelScale 24, unused 28, then
    touchCount 32, dotCount 36 and the padding words 40 and 44. *)
Theorem SimulationUniforms_quantities
    (mem : list byte) (u : SimulationUniforms)
    (Hread : SimulationUniforms_decode mem = Some u) :
  dt u = bytes_word (slice 0 4 mem) /\
  stiffness u = bytes_word (slice 4 4 mem) /\
  damping u = bytes_word (slice 8 4 mem) /\
  effectRadius u = bytes_word (slice 12 4 mem) /\
  maxDisplacement u = bytes_word (slice 16 4 mem) /\
  invMass u = bytes_word (slice 20 4 mem) /\
  pixelScale u = bytes_word (slice 24 4 mem) /\
  unused u = bytes_word (slice 28 4 mem) /\
  touchCount u = bytes_word (slice 32 4 mem) /\
  dotCount u = bytes_word (slice 36 4 mem) /\
  padding0 u = bytes_word (slice 40 4 mem) /\
  padding1 u = bytes_word (slice 44 4 mem).
Proof.
  pose proof (fun k => SimulationUniforms_scalar_at mem u k Hread) as Hat.
  repeat split;
    match goal with
    | |- _ = bytes_word (slice ?o 4 mem) =>
        let k := eval vm_compute in (o / 4)%nat in
        specialize (Hat k ltac:(lia));
        change (4 * k)%nat with o in Hat
    end;
    destruct u as [[] [] ? ? ? ?]; cbn in Hat;
    injection Hat as ->; reflexivity.
Qed.

Lemma SimulationUniforms_quantities_witness :
  dt scenario_uniforms
  = bytes_word (slice 0 4 (SimulationUniforms_encode scenario_uniforms)) /\
  dotCount scenario_uniforms
  = bytes_word (slice 36 4 (SimulationUniforms_encode scenario_uniforms)).
Proof.
  pose proof (SimulationUniforms_quantities
                (SimulationUniforms_encode scenario_uniforms)
                scenario_uniforms ltac:(vm_compute; reflexivity))
    as (Hdt & _ & _ & _ & _ & _ & _ & _ & _ & Hdots & _).
  split; [exact Hdt | exact Hdots].
Defined.

(** ** Every byte string of the right size is a struct *)

Section ExactCodec.
Variable T : Type.
Variable decl : struct_decl.
Variable to_words : T -> list word32.
Variable of_words : list word32 -> option T.

Hypothesis of_to_words : forall s, of_words (to_words s) = Some s.
Hypothesis to_of_words : forall ws s, of_words ws = Some s -> to_words s = ws.
Hypothesis to_words_length :
  forall s, List.length (to_words s) = (struct_sizeof decl / 4)%nat.
Hypothesis sizeof_scalars :
  struct_sizeof decl = (4 * (struct_sizeof decl / 4))%nat.
Hypothesis of_words_total :
  forall ws, List.length ws = (struct_sizeof decl / 4)%nat ->
             exists s, of_words ws = Some s.

Lemma codec_exact_with :
  codec_exact (struct_sizeof decl)
              (encode_with T to_words) (decode_with T decl of_words).
Proof.
  split; [|split].
  - intros mem Hshort. unfold decode_with.
    replace (struct_sizeof decl <=? List.length mem)%nat with false;
      [reflexivity|].
    symmetry. apply Nat.leb_gt. exact Hshort.
  - intros mem Hlen.
    destruct (of_words_total (bytes_words (struct_sizeof decl / 4) mem))
      as [s Hs]; [apply bytes_words_length|].
    assert (decode_with T decl of_words mem = Some s) as Hdec.
    { unfold decode_with.
      replace (struct_sizeof decl <=? List.length mem)%nat with true;
        [exact Hs|].
      symmetry. apply Nat.leb_le. exact Hlen. }
    exists s. split; [exact Hdec|].
    apply (encode_decode_with T decl to_words of_words); assumption.
  - intros s s' Heq.
    pose proof (decode_encode_with T decl to_words of_words
                  of_to_words to_words_length sizeof_scalars s []) as Hs.
    pose proof (decode_encode_with T decl to_words of_words
                  of_to_words to_words_length sizeof_scalars s' []) as Hs'.
    rewrite Heq, Hs' in Hs. congruence.
Qed.
End ExactCodec.

(** A list of the expected length is accepted by a fixed-length pattern. *)
Ltac accepted ws H :=
  repeat (destruct ws as [|? ws]; [discriminate H|]);
  destruct ws; [|discriminate H];
  eexists; reflexivity.

(** X5. For each of the five structs the byte representation is exact:
    every string of [sizeof] bytes (8, 128, 16, 16, 48) is the
    representation of one and only one struct value, so no bit pattern is
    invalid and no two values share their bytes; a buffer with fewer
    bytes does not read as the struct, and a longer one reads as the
    struct held in its first [sizeof] bytes. *)
Theorem codecs_exact :
  codec_exact 8 DotInstanceUniform_encode DotInstanceUniform_decode /\
  codec_exact 128 FrameUniforms_encode FrameUniforms_decode /\
  codec_exact 16 SimulationDotState_encode SimulationDotState_decode /\
  codec_exact 16 SimulationTouch_encode SimulationTouch_decode /\
  codec_exact 48 SimulationUniforms_encode SimulationUniforms_decode.
Proof.
  split; [|split; [|split; [|split]]].
  - apply (codec_exact_with DotInstanceUniform DotInstanceUniform_decl).
    + apply DotInstanceUniform_of_to_words.
    + apply DotInstanceUniform_to_of_words.
    + intros s. scalars_of s. reflexivity.
    + reflexivity.
    + intros ws H. change (struct_sizeof DotInstanceUniform_decl / 4)%nat
        with 2%nat in H.
      unfold DotInstanceUniform_of_words. accepted ws H.
  - apply (codec_exact_with FrameUniforms FrameUniforms_decl).
    + apply FrameUniforms_of_to_words.
    + apply FrameUniforms_to_of_words.
    + apply FrameUniforms_words_length.
    + reflexivity.
    + intros ws H. change (struct_sizeof FrameUniforms_decl / 4)%nat
        with 32%nat in H.
      unfold FrameUniforms_of_words. accepted ws H.
  - apply (codec_exact_with SimulationDotState SimulationDotState_decl).
    + apply SimulationDotState_of_to_words.
    + apply SimulationDotState_to_of_words.
    + intros s. scalars_of s. reflexivity.
    + reflexivity.
    + intros ws H. change (struct_sizeof SimulationDotState_decl / 4)%nat
        with 4%nat in H.
      unfold SimulationDotState_of_words. accepted ws H.
  - apply (codec_exact_with SimulationTouch SimulationTouch_decl).
    + apply SimulationTouch_of_to_words.
    + apply SimulationTouch_to_of_words.
    + intros s. scalars_of s. reflexivity.
    + reflexivity.
    + intros ws H. change (struct_sizeof SimulationTouch_decl / 4)%nat
        with 4%nat in H.
      unfold SimulationTouch_of_words. accepted ws H.
  - apply (codec_exact_with SimulationUniforms SimulationUniforms_decl).
    + apply SimulationUniforms_of_to_words.
    + apply SimulationUniforms_to_of_words.
    + apply SimulationUniforms_words_length.
    + reflexivity.
    + intros ws H. change (struct_sizeof SimulationUniforms_decl / 4)%nat
        with 12%nat in H.
      unfold SimulationUniforms_of_words. accepted ws H.
Qed.

Lemma codecs_exact_witness :
  (exists s, SimulationDotState_decode (zero_buffer 16) = Some s /\
             SimulationDotState_encode s = firstn 16 (zero_buffer 16)) /\
  SimulationDotState_decode (zero_buffer 15) = None.
Proof.
  destruct codecs_exact as (_ & _ & (Hshort & Hread & _) & _).
  split.
  - apply Hread. cbn. lia.
  - apply Hshort. cbn. lia.
Defined.

(** ** Buffers of structs *)

Section ArrayFacts.
Variable T : Type.
Variable size : nat.
Variable encode : T -> list byte.
Variable decode : list byte -> option T.

Hypothesis size_pos : (0 < size)%nat.
Hypothesis encode_length : forall x, List.length (encode x) = size.
Hypothesis decode_encode :
  forall x rest, decode (encode x ++ rest) = Some x.
Hypothesis decode_short :
  forall mem, (List.length mem < size)%nat -> decode mem = None.

Lemma encode_array_length (l : list T) :
  List.length (encode_array T encode l) = (List.length l * size)%nat.
Proof.
  induction l as [|x l IH]; [reflexivity|].
  unfold encode_array in *. cbn [flat_map List.length].
  rewrite length_app, encode_length, IH. lia.
Qed.

Lemma skipn_encode_array (i : nat) (l : list T) :
  skipn (i * size) (encode_array T encode l)
  = encode_array T encode (skipn i l).
Proof.
  revert l. induction i as [|i IH]; intros l; [reflexivity|].
  destruct l as [|x l].
  - rewrite !skipn_nil. reflexivity.
  - replace (Datatypes.S i * size)%nat with (i * size + size)%nat by lia.
    rewrite <- skipn_skipn.
    unfold encode_array in *. cbn [flat_map].
    rewrite skipn_app, encode_length, Nat.sub_diag.
    rewrite (skipn_all2 (encode x)) by (rewrite encode_length; lia).
    apply IH.
Qed.

Lemma firstn_encode_array (i : nat) (l : list T) :
  firstn (i * size) (encode_array T encode l)
  = encode_array T encode (firstn i l).
Proof.
  revert l. induction i as [|i IH]; intros l; [reflexivity|].
  destruct l as [|x l].
  - rewrite !firstn_nil. reflexivity.
  - replace (Datatypes.S i * size)%nat with (size + i * size)%nat by lia.
    unfold encode_array in *. cbn [flat_map].
    rewrite firstn_app, encode_length.
    rewrite (firstn_all2 (encode x)) by (rewrite encode_length; lia).
    replace (size + i * size - size)%nat with (i * size)%nat by lia.
    rewrite IH. reflexivity.
Qed.

Lemma read_at_encode_array (i : nat) (l : list T) :
  read_at T size decode i (encode_array T encode l) = nth_error l i.
Proof.
  unfold read_at. rewrite skipn_encode_array.
  rewrite <- (Nat.add_0_r i) at 2. rewrite <- nth_error_skipn.
  destruct (skipn i l) as [|x rest]; cbn [nth_error].
  - apply decode_short. exact size_pos.
  - unfold encode_array. cbn [flat_map]. apply decode_encode.
Qed.

Lemma write_at_encode_array (i : nat) (v : T) (l : list T) :
  (i < List.length l)%nat ->
  write_at T size encode i v (encode_array T encode l)
  = Some (encode_array T encode (set_nth i v l)).
Proof.
  intros Hi. unfold write_at, store.
  rewrite encode_array_length, encode_length.
  replace (i * size + size <=? List.length l * size)%nat with true
    by (symmetry; apply Nat.leb_le; nia).
  f_equal. unfold set_nth.
  replace (i * size + size)%nat with (Datatypes.S i * size)%nat by lia.
  rewrite firstn_encode_array, skipn_encode_array.
  unfold encode_array. rewrite flat_map_app. reflexivity.
Qed.

Lemma write_at_past_end (i : nat) (v : T) (l : list T) :
  (List.length l <= i)%nat ->
  write_at T size encode i v (encode_array T encode l) = None.
Proof.
  intros Hi. unfold write_at, store.
  rewrite encode_array_length, encode_length.
  replace (i * size + size <=? List.length l * size)%nat with false;
    [reflexivity|].
  symmetry. apply Nat.leb_gt. nia.
Qed.

Lemma nth_error_set_nth (i j : nat) (v : T) (l : list T) :
  (i < List.length l)%nat ->
  nth_error (set_nth i v l) j
  = if Nat.eqb j i then Some v else nth_error l j.
Proof.
  intros Hi. unfold set_nth.
  assert (List.length (firstn i l) = i) as Hlen
    by (rewrite length_firstn; lia).
  destruct (Nat.eqb_spec j i) as [->|Hne].
  - rewrite nth_error_app2 by lia. rewrite Hlen, Nat.sub_diag. reflexivity.
  - destruct (Nat.lt_ge_cases j i) as [Hlt|Hge].
    + rewrite nth_error_app1 by lia.
      rewrite nth_error_firstn.
      replace (j <? i)%nat with true
        by (symmetry; apply Nat.ltb_lt; exact Hlt).
      reflexivity.
    + rewrite nth_error_app2 by lia. rewrite Hlen.
      destruct (j - i)%nat as [|k] eqn:Hk; [lia|].
      cbn [nth_error]. rewrite nth_error_skipn. f_equal. lia.
Qed.

Lemma array_exact_with : array_exact size encode decode.
Proof.
  intros l i v.
  split; [apply encode_array_length|].
  split; [apply read_at_encode_array|].
  split.
  - intros Hi. exists (encode_array T encode (set_nth i v l)).
    split; [apply write_at_encode_array, Hi|].
    split.
    + rewrite encode_array_length. unfold set_nth.
      rewrite length_app, length_firstn. cbn [List.length].
      rewrite length_skipn. nia.
    + intros j. rewrite read_at_encode_array.
      apply nth_error_set_nth, Hi.
  - apply write_at_past_end.
Qed.
End ArrayFacts.

Lemma decode_with_short (T : Type) (decl : struct_decl)
    (of_words : list word32 -> option T) (mem : list byte) :
  (List.length mem < struct_sizeof decl)%nat ->
  decode_with T decl of_words mem = None.
Proof.
  intros Hshort. unfold decode_with.
  replace (struct_sizeof decl <=? List.length mem)%nat with false;
    [reflexivity|].
  symmetry. apply Nat.leb_gt. exact Hshort.
Qed.

(** X6. A buffer holding an array of [DotInstanceUniform] (stride 8),
    [SimulationDotState] (stride 16) or [SimulationTouch] (stride 16)
    behaves like the list of its elements: [n] elements take [n * sizeof]
    bytes, element [i] is read back as the [i]-th struct, an index at or
    past [n] reads nothing and its write is not performed, and a write of
    element [i < n] changes that element and no other. *)
Theorem struct_arrays_exact :
  array_exact 8 DotInstanceUniform_encode DotInstanceUniform_decode /\
  array_exact 16 SimulationDotState_encode SimulationDotState_decode /\
  array_exact 16 SimulationTouch_encode SimulationTouch_decode.
Proof.
  split; [|split]; apply array_exact_with; try lia.
  - intros x. autounfold with codec. rewrite words_bytes_length.
    scalars_of x. reflexivity.
  - apply DotInstanceUniform_decode_encode.
  - apply (decode_with_short _ DotInstanceUniform_decl).
  - intros x. autounfold with codec. rewrite words_bytes_length.
    scalars_of x. reflexivity.
  - apply SimulationDotState_decode_encode.
  - apply (decode_with_short _ SimulationDotState_decl).
  - intros x. autounfold with codec. rewrite words_bytes_length.
    scalars_of x. reflexivity.
  - apply SimulationTouch_decode_encode.
  - apply (decode_with_short _ SimulationTouch_decl).
Qed.

Lemma struct_arrays_exact_witness :
  (exists mem',
      write_at SimulationDotState 16 SimulationDotState_encode 1
        resting_state
        (encode_array SimulationDotState SimulationDotState_encode
                      sample_states) = Some mem' /\
      List.length mem' = 48%nat /\
      read_at SimulationDotState 16 SimulationDotState_decode 1 mem'
      = Some resting_state /\
      read_at SimulationDotState 16 SimulationDotState_decode 2 mem'
      = nth_error sample_states 2) /\
  write_at SimulationDotState 16 SimulationDotState_encode 3 resting_state
    (encode_array SimulationDotState SimulationDotState_encode sample_states)
  = None.
Proof.
  destruct struct_arrays_exact as (_ & Hstates & _).
  destruct (Hstates sample_states 1%nat resting_state)
    as (_ & _ & Hin & _).
  destruct (Hstates sample_states 3%nat resting_state)
    as (_ & _ & _ & Hpast).
  split.
  - destruct Hin as (mem' & Hw & Hlen & Hread); [cbn; lia|].
    exists mem'. split; [exact Hw|]. split; [exact Hlen|].
    split; [exact (Hread 1%nat) | exact (Hread 2%nat)].
  - apply Hpast. cbn. lia.
Defined.

(** ** Alignment *)

Lemma header_arrays_aligned : forallb array_aligned header_decls = true.
Proof. vm_compute. reflexivity. Qed.

(** X7. In an array of any of the five structs that starts at an address
    aligned for the struct, every member of every element lies at an
    address aligned for the member's type (16 bytes for the float4
    members, 8 for float2, 4 for scalars), and ends inside its element:
    the explicit padding makes each struct's size a multiple of its
    alignment. *)
Theorem members_aligned_in_arrays
    (d : struct_decl) (name : string) (t : ctype) (o base i : nat)
    (Hd : In d header_decls)
    (Hm : In (name, t) d)
    (Ho : offsetof d name = Some o)
    (Hbase : Nat.divide (struct_alignof d) base) :
  Nat.divide (alignof t) (base + i * struct_sizeof d + o) /\
  (base + i * struct_sizeof d + o + sizeof t
   <= base + Datatypes.S i * struct_sizeof d)%nat.
Proof.
  pose proof header_arrays_aligned as Hall.
  rewrite forallb_forall in Hall. specialize (Hall d Hd).
  unfold array_aligned in Hall. apply andb_prop in Hall as [Hsize Hmem].
  rewrite forallb_forall in Hmem. specialize (Hmem (name, t) Hm).
  unfold member_aligned in Hmem. cbn [fst snd] in Hmem. rewrite Ho in Hmem.
  apply andb_prop in Hmem as [Hmem Hend].
  apply andb_prop in Hmem as [Hoff Halign].
  apply Nat.eqb_eq, Nat.Lcm0.mod_divide in Hsize, Hoff, Halign.
  apply Nat.leb_le in Hend.
  split; [|lia].
  apply Nat.divide_add_r; [apply Nat.divide_add_r|exact Hoff].
  - apply (Nat.divide_trans _ _ _ Halign Hbase).
  - apply Nat.divide_mul_r.
    apply (Nat.divide_trans _ _ _ Halign Hsize).
Qed.

Lemma members_aligned_in_arrays_witness :
  Nat.divide 16 (4096 + 5 * 128 + 64) /\
  (4096 + 5 * 128 + 64 + 64 <= 4096 + 6 * 128)%nat.
Proof.
  apply (members_aligned_in_arrays FrameUniforms_decl "gradientColors"
           (Tarray Tvector_float4 4) 64 4096 5).
  - cbn. auto.
  - cbn. auto 12.
  - reflexivity.
  - exists 256%nat. reflexivity.
Defined.

Lemma layout_abi_independent_witness :
  struct_offsets_under (abi_alignof (mk_abi 4 4 4 4)) FrameUniforms_decl
  = struct_offsets FrameUniforms_decl /\
  struct_sizeof_under (abi_alignof (mk_abi 4 4 4 4)) FrameUniforms_decl
  = struct_sizeof FrameUniforms_decl.
Proof.
  apply layout_abi_independent.
  - cbv [all_abis flat_map map app].
    repeat (first [left; reflexivity | right]).
  - cbn. auto.
Defined.
